(** * Recurring schedules and task combinators of the [tasks] package

    A shallow embedding of [src/recurring/recurring.go] (the recurring
    time-stream algebra and its merge engine) and of the task combinators
    exercised by [src/tasks_test.go], followed by the properties proved
    about them.

    Conventions.  A method [x.M(args)] of a Go type [T] is the function
    [T_M x args]; a method that mutates its receiver returns the new
    receiver next to its result.  A Go [error] is [option error], [None]
    being [nil]. *)

From Stdlib Require Import ZArith List Lia Bool String.
From stdpp Require Import base list.

(** ** Package [time] of the Go standard library

    An instant is a count of nanoseconds since the Unix epoch together with
    a location; a location is a fixed offset from UTC in seconds (the zones
    built by [time.FixedZone], and [time.UTC]); locations with transitions
    are the subject of module [zoned] below.  Instants, durations and the
    fields of [Date] are unbounded integers: the library's 64-bit counters,
    which make [Add] stop at the ends of its range and [Date] wrap around
    for very large fields, are not reached by the instants and fields that
    [inRange], [isDuration] and [isSmallInt] describe, and there the model
    computes what the library computes. *)
Module time.
Local Open Scope Z_scope.

Definition Duration : Type := Z.

Definition Nanosecond : Duration := 1.
Definition Microsecond : Duration := 1000 * Nanosecond.
Definition Millisecond : Duration := 1000 * Microsecond.
Definition Second : Duration := 1000 * Millisecond.
Definition Minute : Duration := 60 * Second.
Definition Hour : Duration := 60 * Minute.

Record Location : Type := FixedZone { offset : Z }.

Definition UTC : Location := FixedZone 0.

Record Time : Type := mkTime { unixNano : Z; loc : Location }.

Definition Time_Add (t : Time) (d : Duration) : Time :=
  mkTime (unixNano t + d) (loc t).
Arguments Time_Add t d%_Z.


Definition Time_After (t u : Time) : bool := unixNano u <? unixNano t.

Definition Time_Before (t u : Time) : bool := unixNano t <? unixNano u.

Definition Time_Location (t : Time) : Location := loc t.

(** The zero value [time.Time{}]: January 1 of year 1, 00:00 UTC. *)
Definition zero : Time := mkTime (- 62135596800000000000) UTC.

(** The proleptic Gregorian calendar.  Day 0 is January 1 of year 1. *)
Definition secondsPerDay : Z := 86400.
Definition daysPer400Years : Z := 146097.
Definition daysPer100Years : Z := 36524.
Definition daysPer4Years : Z := 1461.
(** Days from January 1 of year 1 to January 1, 1970. *)
Definition unixEpochDays : Z := 719162.

Definition isLeap (year : Z) : bool :=
  (year mod 4 =? 0) && (negb (year mod 100 =? 0) || (year mod 400 =? 0)).

(** [daysBefore m] is the number of days in a non-leap year before month
    [m + 1] (so [daysBefore 0 = 0] for January). *)
Definition daysBefore (m : Z) : Z :=
  if m <=? 0 then 0 else
  if m =? 1 then 31 else
  if m =? 2 then 59 else
  if m =? 3 then 90 else
  if m =? 4 then 120 else
  if m =? 5 then 151 else
  if m =? 6 then 181 else
  if m =? 7 then 212 else
  if m =? 8 then 243 else
  if m =? 9 then 273 else
  if m =? 10 then 304 else
  if m =? 11 then 334 else 365.

(** Days from January 1 of year 1 to January 1 of [year]. *)
Definition daysSinceEpoch (year : Z) : Z :=
  let y := year - 1 in
  let n400 := y / 400 in
  let y := y - 400 * n400 in
  let n100 := y / 100 in
  let y := y - 100 * n100 in
  let n4 := y / 4 in
  let y := y - 4 * n4 in
  daysPer400Years * n400 + daysPer100Years * n100 + daysPer4Years * n4 + 365 * y.

(** [norm hi lo base] carries the part of [lo] outside [0, base) into
    [hi]. *)
Definition norm (hi lo base : Z) : Z * Z := (hi + lo / base, lo mod base).

(** The instant's seconds since January 1 of year 1, on the wall clock of
    its location. *)
Definition Time_abs (t : Time) : Z :=
  unixNano t / 1000000000 + offset (loc t) + unixEpochDays * secondsPerDay.

(** The day number of the instant in its location. *)
Definition Time_days (t : Time) : Z := Time_abs t / secondsPerDay.

(** Year and day within the year (0-based) of a day number: 400-, 100-,
    4- and 1-year cycles are cut off in turn. *)
Definition yearDay (days : Z) : Z * Z :=
  let n400 := days / daysPer400Years in
  let d := days - daysPer400Years * n400 in
  let n100 := d / daysPer100Years in
  let n100 := n100 - n100 / 4 in
  let d := d - daysPer100Years * n100 in
  let n4 := d / daysPer4Years in
  let d := d - daysPer4Years * n4 in
  let n := d / 365 in
  let n := n - n / 4 in
  let d := d - 365 * n in
  (400 * n400 + 100 * n100 + 4 * n4 + n + 1, d).

(** Month (1..12) and day of the month (1-based) of a 0-based day of the
    year. *)
Definition monthDay (leap : bool) (yday : Z) : Z * Z :=
  let l := if leap then 1 else 0 in
  if yday <? 31 then (1, yday + 1) else
  if yday <? 59 + l then (2, yday - 31 + 1) else
  if yday <? 90 + l then (3, yday - (59 + l) + 1) else
  if yday <? 120 + l then (4, yday - (90 + l) + 1) else
  if yday <? 151 + l then (5, yday - (120 + l) + 1) else
  if yday <? 181 + l then (6, yday - (151 + l) + 1) else
  if yday <? 212 + l then (7, yday - (181 + l) + 1) else
  if yday <? 243 + l then (8, yday - (212 + l) + 1) else
  if yday <? 273 + l then (9, yday - (243 + l) + 1) else
  if yday <? 304 + l then (10, yday - (273 + l) + 1) else
  if yday <? 334 + l then (11, yday - (304 + l) + 1) else
  (12, yday - (334 + l) + 1).

(** [t.Date()]: year, month and day of the instant in its location. *)
Definition Time_Date (t : Time) : Z * Z * Z :=
  let '(year, yday) := yearDay (Time_days t) in
  let '(month, day) := monthDay (isLeap year) yday in
  (year, month, day).

Definition Time_Year (t : Time) : Z := fst (fst (Time_Date t)).
Definition Time_Month (t : Time) : Z := snd (fst (Time_Date t)).
Definition Time_Day (t : Time) : Z := snd (Time_Date t).

(** [t.Clock()]: hour, minute and second within the day. *)
Definition Time_Clock (t : Time) : Z * Z * Z :=
  let sec := Time_abs t mod secondsPerDay in
  (sec / 3600, (sec mod 3600) / 60, sec mod 60).

Definition Time_Hour (t : Time) : Z := fst (fst (Time_Clock t)).
Definition Time_Minute (t : Time) : Z := snd (fst (Time_Clock t)).
Definition Time_Second (t : Time) : Z := snd (Time_Clock t).
Definition Time_Nanosecond (t : Time) : Z := unixNano t mod 1000000000.

(** [time.Date]: the fields may be outside their usual ranges and are
    normalised; the day is counted from the first of the month without
    regard to the month's length. *)
Definition Date (year month day hour min sec nsec : Z) (l : Location) : Time :=
  let '(year, m) := norm year (month - 1) 12 in
  let '(sec, nsec) := norm sec nsec 1000000000 in
  let '(min, sec) := norm min sec 60 in
  let '(hour, min) := norm hour min 60 in
  let '(day, hour) := norm day hour 24 in
  let d := daysSinceEpoch year + daysBefore m
           + (if isLeap year && (3 <=? m + 1) then 1 else 0) + (day - 1) in
  let abs := d * secondsPerDay + hour * 3600 + min * 60 + sec in
  let unix := abs - unixEpochDays * secondsPerDay - offset l in
  mkTime (unix * 1000000000 + nsec) l.

Definition Time_AddDate (t : Time) (years months days : Z) : Time :=
  let '(year, month, day) := Time_Date t in
  let '(hour, min, sec) := Time_Clock t in
  Date (year + years) (month + months) (day + days) hour min sec
       (Time_Nanosecond t) (Time_Location t).

(** *** The range in which the model is the library *)

(** The instant is within 2^55 seconds (some 1.1 billion years) of the Unix
    epoch, and the offset of its location is below 2^31 seconds.  The
    library holds the seconds since year 1 in a signed 64-bit integer and
    the year in an [int]: from an instant in this range, [Add], [Date] and
    [AddDate] reach every other instant in it without saturating or
    wrapping. *)
Definition inRange (t : Time) : Prop :=
  (- 2 ^ 55 <= unixNano t / 1000000000 <= 2 ^ 55)
  /\ (- 2 ^ 31 <= offset (loc t) <= 2 ^ 31).

(** A [Duration] is a signed 64-bit count of nanoseconds. *)
Definition isDuration (d : Duration) : Prop := - 2 ^ 63 <= d < 2 ^ 63.

(** The value is at most 2^30 in absolute value: it fits an [int], which
    has 32 bits or more, and so does the sum of two such values. *)
Definition isSmallInt (x : Z) : Prop := - 2 ^ 30 <= x <= 2 ^ 30.

(** Seconds from January 1 of year 1 to January 1, 1970. *)
Definition unixToInternal : Z := 62135596800.

(** [t.Add(d)] as the library computes it on its counters: the whole
    seconds of [d] (rounded towards zero) are added to the seconds since
    year 1, the rest to the nanoseconds, with a carry; a sum of seconds
    that does not fit 64 bits is replaced by the largest, or the smallest,
    count the library uses.  [Time_Add] is this function wherever the sum
    fits ([Time_Add_fits] below). *)
Definition Time_Add_saturating (t : Time) (d : Duration) : Time :=
  let sec := unixNano t / 1000000000 + unixToInternal in
  let nsec := unixNano t mod 1000000000 + Z.rem d 1000000000 in
  let dsec := Z.quot d 1000000000 in
  let '(dsec, nsec) :=
    if 1000000000 <=? nsec then (dsec + 1, nsec - 1000000000)
    else if nsec <? 0 then (dsec - 1, nsec + 1000000000)
    else (dsec, nsec) in
  let sum := sec + dsec in
  let sec := if (- 2 ^ 63 <=? sum) && (sum <? 2 ^ 63) then sum
             else if 0 <? dsec then 2 ^ 63 - 1 else - (2 ^ 63 - 1) in
  mkTime ((sec - unixToInternal) * 1000000000 + nsec) (loc t).

(** *** Wall-clock vocabulary of the schedule properties *)

(** The wall clock of [v]'s location reads [hour]:[minute]:00.000000000. *)
Definition atClock (hour minute : Z) (v : Time) : Prop :=
  Time_Hour v = hour /\ Time_Minute v = minute /\ Time_Second v = 0
  /\ Time_Nanosecond v = 0.

(** [v] is the first instant strictly after [t] at which the wall clock of
    [t]'s location reads [hour]:[minute]. *)
Definition nextOccurrence (hour minute : Z) (t v : Time) : Prop :=
  Time_Location v = Time_Location t /\ atClock hour minute v
  /\ Time_After v t = true
  /\ forall w, Time_Location w = Time_Location t -> atClock hour minute w ->
               Time_After w t = true -> Time_Before w v = false.

(** The wall clock of [t] reads a time of day before [hour]:[minute]:
    that time has not yet passed on [t]'s day. *)
Definition clockBefore (t : Time) (hour minute : Z) : bool :=
  (Time_Hour t <? hour) || ((Time_Hour t =? hour) && (Time_Minute t <? minute)).

End time.

(** ** Package [time]: locations with transitions

    A location of the library is a table of transitions: from each of
    them on another offset from UTC applies, and [lookup] finds the one in
    use at a given second.  At every moment such a location has one
    offset, and an instant in it reads as the instant of module [time] at
    that offset: the accessors below are those of module [time] at
    [atOffset].  [Date] has to find the offset from the wall-clock
    reading; where the reading does not exist, because the clocks were
    moved forward over it, it answers with another reading. *)
Module zoned.
Local Open Scope Z_scope.

(** [first_offset] applies before the first transition; a transition is
    the Unix second [when] it happens and the offset that applies from
    then on, and the table is in ascending order of [when]. *)
Record Location : Type := mkLocation {
  first_offset : Z;
  tx : list (Z * Z)
}.

(** A location without transitions, as [time.FixedZone] builds it. *)
Definition FixedZone (offset : Z) : Location := mkLocation offset [].

(** The ends of time for [lookup]. *)
Definition alpha : Z := - 2 ^ 63.
Definition omega : Z := 2 ^ 63 - 1.

Fixpoint lookup_loop (offset start : Z) (tx : list (Z * Z)) (sec : Z) : Z * Z * Z :=
  match tx with
  | [] => (offset, start, omega)
  | (when, offset') :: rest =>
      if sec <? when then (offset, start, when)
      else lookup_loop offset' when rest sec
  end.

(** [l.lookup(sec)]: the offset in use at the Unix second [sec], and the
    seconds at which that offset begins and ends. *)
Definition lookup (l : Location) (sec : Z) : Z * Z * Z :=
  lookup_loop (first_offset l) alpha (tx l) sec.

Record Time : Type := mkTime { unixNano : Z; loc : Location }.

(** The offset in use at the instant. *)
Definition Time_offset (t : Time) : Z :=
  fst (fst (lookup (loc t) (unixNano t / 1000000000))).

(** The instant as module [time] has it, at the offset in use. *)
Definition atOffset (t : Time) : time.Time :=
  time.mkTime (unixNano t) (time.FixedZone (Time_offset t)).

Definition Time_Year (t : Time) : Z := time.Time_Year (atOffset t).
Definition Time_Month (t : Time) : Z := time.Time_Month (atOffset t).
Definition Time_Day (t : Time) : Z := time.Time_Day (atOffset t).
Definition Time_Hour (t : Time) : Z := time.Time_Hour (atOffset t).
Definition Time_Minute (t : Time) : Z := time.Time_Minute (atOffset t).
Definition Time_Second (t : Time) : Z := time.Time_Second (atOffset t).
Definition Time_Nanosecond (t : Time) : Z := time.Time_Nanosecond (atOffset t).
Definition Time_Location (t : Time) : Location := loc t.
Definition Time_After (t u : Time) : bool := unixNano u <? unixNano t.

(** [time.Date]: the fields are first read as a time in UTC ([unix]);
    the offset in use at that second is looked up and, if the second it
    leads to lies outside the period of that offset, the offset in use at
    that second is taken instead. *)
Definition Date (year month day hour min sec nsec : Z) (l : Location) : Time :=
  let u := time.Date year month day hour min sec nsec time.UTC in
  let unix := time.unixNano u / 1000000000 in
  let nsec := time.unixNano u mod 1000000000 in
  let '(offset, start, end_) := lookup l unix in
  let unix :=
    if offset =? 0 then unix
    else
      let utc := unix - offset in
      let offset := if (utc <? start) || (end_ <=? utc)
                    then fst (fst (lookup l utc)) else offset in
      unix - offset in
  mkTime (unix * 1000000000 + nsec) l.

Definition Time_AddDate (t : Time) (years months days : Z) : Time :=
  Date (Time_Year t + years) (Time_Month t + months) (Time_Day t + days)
       (Time_Hour t) (Time_Minute t) (Time_Second t) (Time_Nanosecond t)
       (Time_Location t).

(** America/New_York around 2014: Eastern Standard Time (UTC-5) until
    2014-03-09 07:00 UTC, when the clocks go from 02:00 to 03:00; Eastern
    Daylight Time (UTC-4) until 2014-11-02 06:00 UTC; standard time
    after. *)
Definition NewYork : Location :=
  mkLocation (-18000) [(1394348400, -14400); (1414908000, -18000)].

End zoned.

(** ** Package [errors] of the Go standard library *)
Module errors.

Inductive error : Type := New (text : string).

(** [err == nil] *)
Definition isNil (err : option error) : bool :=
  match err with
  | None => true
  | Some _ => false
  end.

End errors.

(** ** Package [functional] (gofunctional3): lazy streams

    The package is an external collaborator of the repository.
    [Next(ptr)] either stores a value through [ptr] and returns [nil]
    ([Value v]) or returns an error and stores nothing ([Failed err]);
    [Done] is the error that signals the end of the stream.

    A value of the interface type [Stream] is represented by what its
    client can observe: the result of its [k]-th call of [Next], for every
    [k], and the number of calls made so far.  [asStream] converts a value
    that has a [Next] method to the interface. *)
Module functional.

Definition Done : errors.error :=
  errors.New "functional: End of Stream reached.".

Definition isDone (err : errors.error) : bool :=
  match err, Done with
  | errors.New a, errors.New b => String.eqb a b
  end.

Inductive Emit : Type :=
| Value (v : time.Time)
| Failed (err : errors.error).

Record Stream : Type := mkStream {
  Stream_seq : nat -> Emit;
  Stream_pos : nat
}.

Definition Stream_Next (s : Stream) : Stream * Emit :=
  (mkStream (Stream_seq s) (S (Stream_pos s)), Stream_seq s (Stream_pos s)).

(** The receiver after [k] calls of its [Next] method. *)
Fixpoint after {St : Type} (next : St -> St * Emit) (k : nat) (s : St) : St :=
  match k with
  | O => s
  | S k' => after next k' (fst (next s))
  end.

Definition asStream {St : Type} (next : St -> St * Emit) (s : St) : Stream :=
  mkStream (fun k => snd (next (after next k s))) 0.

(** The results of [n] successive calls of [Next]. *)
Fixpoint pulls (n : nat) (s : Stream) : list Emit :=
  match n with
  | O => []
  | S k => let '(s', r) := Stream_Next s in r :: pulls k s'
  end.

(** [Slice(s, start, end)] emits the elements of [s] from index [start]
    up to but not including index [end]; a negative [end] means up to the
    end of [s]. *)
Record sliceStream : Type := mkSlice {
  slice_Stream : Stream;
  slice_start : Z;
  slice_end : Z;
  slice_index : Z;
  slice_done : bool
}.

(** The loop of [sliceStream.Next]: values are pulled and dropped until
    [index] has passed [start].  It turns at most [start - index + 1]
    times; [fuel] counts the turns after the first. *)
Fixpoint sliceStream_loop (fuel : nat) (s : sliceStream) : sliceStream * Emit :=
  if ((slice_end s <? 0) || (slice_index s <? slice_end s))%Z then
    let '(inner, r) := Stream_Next (slice_Stream s) in
    match r with
    | Failed err =>
        (mkSlice inner (slice_start s) (slice_end s) (slice_index s)
                 (if isDone err then true else slice_done s),
         Failed err)
    | Value v =>
        let s' := mkSlice inner (slice_start s) (slice_end s)
                          (slice_index s + 1) (slice_done s) in
        match fuel with
        | O => (s', Value v)
        | S fuel' =>
            if (slice_start s <? slice_index s')%Z then (s', Value v)
            else sliceStream_loop fuel' s'
        end
    end
  else
    (mkSlice (slice_Stream s) (slice_start s) (slice_end s) (slice_index s) true,
     Failed Done).

Definition sliceStream_Next (s : sliceStream) : sliceStream * Emit :=
  if slice_done s then (s, Failed Done)
  else sliceStream_loop (Z.to_nat (slice_start s - slice_index s)) s.

Definition Slice (s : Stream) (start end_ : Z) : Stream :=
  asStream sliceStream_Next (mkSlice s start end_ 0 false).

(** *** Vocabulary of the stream properties *)

(** The results of [n] successive calls of a [Next] method on its
    receiver. *)
Fixpoint results {St : Type} (next : St -> St * Emit) (n : nat) (s : St) : list Emit :=
  match n with
  | O => []
  | S k => snd (next s) :: results next k (fst (next s))
  end.

Definition isValue (r : Emit) : bool :=
  match r with
  | Value _ => true
  | Failed _ => false
  end.

(** Every value among the results is strictly after [t]. *)
Definition emits_after (t : time.Time) (l : list Emit) : Prop :=
  forall (i : nat) v, l !! i = Some (Value v) -> time.Time_After v t = true.

(** Each value among the results is strictly before the one that follows
    it. *)
Definition strictly_ascending (l : list Emit) : Prop :=
  forall (i : nat) v w, l !! i = Some (Value v) -> l !! S i = Some (Value w) ->
                        time.Time_Before v w = true.

(** Every value among the results is in the range in which the model of
    package [time] is the library. *)
Definition valuesInRange (l : list Emit) : Prop :=
  forall (i : nat) v, l !! i = Some (Value v) -> time.inRange v.

(** A call of one of the two methods of a stream. *)
Inductive StreamOp : Type := OpNext | OpClose.

Fixpoint countNext (ops : list StreamOp) : nat :=
  match ops with
  | [] => O
  | OpNext :: rest => S (countNext rest)
  | OpClose :: rest => countNext rest
  end.

(** The results of the [Next] calls in a sequence of calls on a receiver
    with the given methods. *)
Fixpoint runOps {St : Type} (next : St -> St * Emit)
    (close : St -> St * option errors.error) (ops : list StreamOp) (s : St) : list Emit :=
  match ops with
  | [] => []
  | OpNext :: rest => snd (next s) :: runOps next close rest (fst (next s))
  | OpClose :: rest => runOps next close rest (fst (close s))
  end.

(** The results hold no failure but the end of the stream. *)
Definition endsOnly (l : list Emit) : Prop :=
  forall (i : nat) err, l !! i = Some (Failed err) -> err = Done.

(** The results cut after [n] values or at the first failure, whichever
    comes first, and continued with [Done] to the same length. *)
Fixpoint firstValues (n : nat) (l : list Emit) : list Emit :=
  match n, l with
  | S n', Value v :: l' => Value v :: firstValues n' l'
  | _, _ => repeat (Failed Done) (length l)
  end.

End functional.

(** ** Package [heap] of the Go standard library (container/heap)

    The algorithms work on any type that has [Len], [Less] and [Swap].
    Go's [int] indices are natural numbers here, so the guard against an
    overflowing child index has no counterpart. *)
Module heap.

Class Interface (H : Type) : Type := {
  Len : H -> nat;
  Less : H -> nat -> nat -> bool;
  Swap : H -> nat -> nat -> H
}.

Section Algorithms.
Context {H : Type} `{Interface H}.

(** The loop of [down]: the entry at [i] sinks below its smaller child
    until no child is less than it.  Every turn moves [i] to one of its
    children, so [n] turns always reach the bottom: when [fuel] is used up
    [i] has no child below [n] and the loop would stop there as well. *)
Fixpoint down_loop (fuel : nat) (h : H) (i n : nat) : H * nat :=
  match fuel with
  | O => (h, i)
  | S fuel' =>
      let j1 := 2 * i + 1 in
      if n <=? j1 then (h, i) else
      let j := if (j1 + 1 <? n) && Less h (j1 + 1) j1 then j1 + 1 else j1 in
      if negb (Less h j i) then (h, i)
      else down_loop fuel' (Swap h i j) j n
  end.

Definition down (h : H) (i0 n : nat) : H * bool :=
  let '(h', i) := down_loop n h i0 n in (h', i0 <? i).

(** [for i := n/2 - 1; i >= 0; i-- { down(h, i, n) }], with [k = i + 1]. *)
Fixpoint Init_loop (k : nat) (h : H) (n : nat) : H :=
  match k with
  | O => h
  | S i => Init_loop i (fst (down h i n)) n
  end.

Definition Init (h : H) : H :=
  let n := Len h in Init_loop (n / 2) h n.

End Algorithms.
End heap.

(** ** Package [recurring] ([src/recurring/recurring.go])

    [Filter] is left out: no property below involves it.  The file breaks
    off inside [streamHeap.Push]: the methods [Next] and [Close] of
    [mergeStream] are not in it. *)
Module recurring.
Import functional.

(** [R] represents a recurring time such as each Monday at 7:00;
    [RFunc] converts an ordinary function to an [R]. *)
Record R : Type := RFunc { ForTime : time.Time -> Stream }.

(** [Modify] returns a new [R] that uses [f] to modify the streams that
    [r] creates. *)
Definition Modify (r : R) (f : Stream -> Stream) : R :=
  RFunc (fun t => f (ForTime r t)).

(** [FirstN] generates only the first [n] times that [r] generates. *)
Definition FirstN (r : R) (n : Z) : R :=
  Modify r (fun s => Slice s 0 n).

(** [closeDoesNothing] is an empty struct; its [Close] has a value
    receiver and returns [nil]. *)
Inductive closeDoesNothing : Type := mkCloseDoesNothing.

Definition closeDoesNothing_Close (n : closeDoesNothing) : option errors.error :=
  None.

Record dateStream : Type := mkDateStream {
  dateStream_t : time.Time;
  dateStream_closeDoesNothing : closeDoesNothing
}.

Definition dateStream_Next (s : dateStream) : dateStream * Emit :=
  (mkDateStream (time.Time_AddDate (dateStream_t s) 0 0 1)
                (dateStream_closeDoesNothing s),
   Value (dateStream_t s)).

(** The method promoted from the embedded [closeDoesNothing]: it is called
    on a copy of the embedded value, so the stream is left as it is. *)
Definition dateStream_Close (s : dateStream) : dateStream * option errors.error :=
  (s, closeDoesNothing_Close (dateStream_closeDoesNothing s)).

Record intervalStream : Type := mkIntervalStream {
  intervalStream_t : time.Time;
  intervalStream_d : time.Duration;
  intervalStream_closeDoesNothing : closeDoesNothing
}.

Definition intervalStream_Next (s : intervalStream) : intervalStream * Emit :=
  (mkIntervalStream (time.Time_Add (intervalStream_t s) (intervalStream_d s))
                    (intervalStream_d s) (intervalStream_closeDoesNothing s),
   Value (intervalStream_t s)).

Definition intervalStream_Close (s : intervalStream)
  : intervalStream * option errors.error :=
  (s, closeDoesNothing_Close (intervalStream_closeDoesNothing s)).

(** The [intervalStream] that [AtInterval(d).ForTime(t)] returns. *)
Definition newIntervalStream (d : time.Duration) (t : time.Time) : intervalStream :=
  mkIntervalStream (time.Time_Add t d) d mkCloseDoesNothing.

(** [AtInterval] represents repeating at [d] intervals. *)
Definition AtInterval (d : time.Duration) : R :=
  RFunc (fun t => asStream intervalStream_Next (newIntervalStream d t)).
Arguments AtInterval d%_Z.

(** The [dateStream] that [AtTime(hour24, minute).ForTime(t)] returns. *)
Definition newDateStream (hour24 minute : Z) (t : time.Time) : dateStream :=
  let firstT := time.Date (time.Time_Year t) (time.Time_Month t) (time.Time_Day t)
                          hour24 minute 0 0 (time.Time_Location t) in
  let firstT := if negb (time.Time_After firstT t)
                then time.Time_AddDate firstT 0 0 1 else firstT in
  mkDateStream firstT mkCloseDoesNothing.

(** [AtTime] represents repeating at a certain time of day. *)
Definition AtTime (hour24 minute : Z) : R :=
  RFunc (fun t => asStream dateStream_Next (newDateStream hour24 minute t)).

(** *** The merge engine *)

Record item : Type := mkItem {
  item_stream : Stream;
  item_t : time.Time;
  item_e : option errors.error
}.

(** [i.e = i.stream.Next(&i.t)].  A call of [Next] that fails stores
    nothing through the pointer here (see [Emit]), so the entry keeps the
    time it held; a stream that wrote through the pointer before it failed
    would change [i.t] as well. *)
Definition item_pop (i : item) : item :=
  let '(s, r) := Stream_Next (item_stream i) in
  match r with
  | Value v => mkItem s v None
  | Failed err => mkItem s (item_t i) (Some err)
  end.

(** [streamHeap] is a slice of pointers to items; every item is pointed to
    by one slot only, so the slots hold the items themselves here. *)
Abbreviation streamHeap := (list item) (only parsing).

Definition streamHeap_Len (sh : streamHeap) : nat := length sh.

(** The comparison of [streamHeap.Less] on the two entries read. *)
Definition item_less (a b : item) : bool :=
  if negb (errors.isNil (item_e a)) then errors.isNil (item_e b)
  else if negb (errors.isNil (item_e b)) then false
  else time.Time_Before (item_t a) (item_t b).

(** An index outside the slice is a run-time panic in Go.  The heap
    algorithms compare and swap positions below [Len] only; outside it
    [Less] answers [false] and [Swap] changes nothing here. *)
Definition streamHeap_Less (sh : streamHeap) (i j : nat) : bool :=
  match sh !! i, sh !! j with
  | Some a, Some b => item_less a b
  | _, _ => false
  end.

(** [sh[i], sh[j] = sh[j], sh[i]] (the source writes [return] before the
    assignment, which is no Go; the exchange is what the line says). *)
Definition streamHeap_Swap (sh : streamHeap) (i j : nat) : streamHeap :=
  match sh !! i, sh !! j with
  | Some a, Some b => <[j := a]> (<[i := b]> sh)
  | _, _ => sh
  end.

#[export] Instance streamHeap_Interface : heap.Interface streamHeap := {
  heap.Len := streamHeap_Len;
  heap.Less := streamHeap_Less;
  heap.Swap := streamHeap_Swap
}.

(** The sub-streams are reached through the heap's items, which own their
    state; the [streams] field of the source would only be used to close
    them. *)
Record mergeStream : Type := mkMergeStream { mergeStream_sh : streamHeap }.

(** One value is pulled from every stream, then the heap is built. *)
Definition combineStreams (streams : list Stream) : mergeStream :=
  let h := map (fun s => item_pop (mkItem s time.zero None)) streams in
  mkMergeStream (heap.Init h).

(** [Combine] combines multiple [R] instances together and returns them as
    a single one.  What it returns for [t] is a [mergeStream], whose [Next]
    is not in the source: [Combine rs t] is that [mergeStream] as
    [combineStreams] leaves it, before any call.  (The argument of
    [ForTime] is cut off in the source; [t] is the only instant in
    scope.) *)
Definition Combine (rs : list R) (t : time.Time) : mergeStream :=
  let streams := map (fun r => ForTime r t) rs in
  combineStreams streams.

(** *** Vocabulary of the merge properties *)

(** [c] is one of the two positions below [p] in the heap. *)
Definition child (c p : nat) : Prop := c = 2 * p + 1 \/ c = 2 * p + 2.

(** No entry at or after position [lo] has an entry below it that is less
    than it. *)
Definition heapOrderedFrom (lo : nat) (h : streamHeap) : Prop :=
  forall p c a b, lo <= p -> child c p ->
    h !! p = Some a -> h !! c = Some b -> item_less b a = false.

Definition heapOrdered (h : streamHeap) : Prop := heapOrderedFrom 0 h.

(** The heap is ordered from [lo] on but for the entry at [i], and the
    entries below [i] are not less than the entry above it. *)
Definition heapExcept (lo i : nat) (h : streamHeap) : Prop :=
  (forall p c a b, lo <= p -> p <> i -> child c p ->
     h !! p = Some a -> h !! c = Some b -> item_less b a = false)
  /\ (forall p c a b, lo <= p -> child i p -> child c i ->
        h !! p = Some a -> h !! c = Some b -> item_less b a = false).

(** The entry's last pull signalled an error or the end of its stream. *)
Definition errored (x : item) : Prop := item_e x <> None.

(** The entry holds a value of its stream. *)
Definition real (x : item) : Prop := item_e x = None.

(** The entry after [n] calls of its [pop] method. *)
Fixpoint pops (n : nat) (x : item) : item :=
  match n with
  | O => x
  | S k => pops k (item_pop x)
  end.

(** The last value among the results, [t0] if there is none. *)
Fixpoint lastValue (t0 : time.Time) (l : list Emit) : time.Time :=
  match l with
  | [] => t0
  | Value v :: l' => lastValue v l'
  | Failed _ :: l' => lastValue t0 l'
  end.

(** The error of the last result ([nil] for a value), [e0] if there is no
    result. *)
Fixpoint lastError (e0 : option errors.error) (l : list Emit) : option errors.error :=
  match l with
  | [] => e0
  | Value _ :: l' => lastError None l'
  | Failed err :: l' => lastError (Some err) l'
  end.

(** *** [AtTime] in a location with transitions

    The body of [AtTime] (lines 82 to 86 of the source) and of
    [dateStream.Next] (lines 97 and 98) once more, over the instants of
    module [zoned]. *)

(** The instant [firstT] that [AtTime(hour24, minute).ForTime(t)] puts in
    its [dateStream]. *)
Definition zoned_newDateStream (hour24 minute : Z) (t : zoned.Time) : zoned.Time :=
  let firstT := zoned.Date (zoned.Time_Year t) (zoned.Time_Month t) (zoned.Time_Day t)
                           hour24 minute 0 0 (zoned.Time_Location t) in
  if negb (zoned.Time_After firstT t) then zoned.Time_AddDate firstT 0 0 1 else firstT.

(** [*p = s.t; s.t = s.t.AddDate(0, 0, 1)]: the new [s.t] and the value
    stored. *)
Definition zoned_dateStream_Next (s : zoned.Time) : zoned.Time * zoned.Time :=
  (zoned.Time_AddDate s 0 0 1, s).

(** The values of the first [n] calls of [Next]. *)
Fixpoint zoned_values (n : nat) (s : zoned.Time) : list zoned.Time :=
  match n with
  | O => []
  | S k => let '(s', v) := zoned_dateStream_Next s in v :: zoned_values k s'
  end.

(** The first [n] values of [AtTime(hour24, minute).ForTime(t)]. *)
Definition zoned_AtTime (hour24 minute : Z) (t : zoned.Time) (n : nat) : list zoned.Time :=
  zoned_values n (zoned_newDateStream hour24 minute t).

End recurring.

(** ** Package [tasks]

    Modelled from the spec: [tasks.go] (the execution control object, the
    clocks and the task combinators) is not among the sources; only its
    test file is.  The definitions below follow sections 4.1 and 4.2 of the
    specification, and [src/tasks_test.go] where the two disagree. *)
Module tasks.
Import functional.

(** Modelled from the spec: the clock capability.  [Clock_Current] is the
    instant [now()] reports.  A task runs sequentially here, and the owner
    of the execution, who may call [end()] from outside, is part of the
    clock: [Clock_endsDuring k] tells whether it does so while sleep number
    [k] of the run (counted from 0) is in progress. *)
Record Clock : Type := mkClock {
  Clock_Current : time.Time;
  Clock_sleeps : nat;
  Clock_endsDuring : nat -> bool
}.

(** Modelled from the spec: the virtual clock of the tests,
    [&tasks.ClockForTesting{t}].  It advances only when told to sleep and
    nobody interrupts it. *)
Definition ClockForTesting (t : time.Time) : Clock :=
  mkClock t 0 (fun _ => false).

(** Modelled from the spec: the real clock of a run whose owner calls
    [end()] during sleep number [k] ([tasks.go] is missing). *)
Definition ClockEndedDuring (t : time.Time) (k : nat) : Clock :=
  mkClock t 0 (fun i => Nat.eqb i k).

(** Modelled from the spec: the execution control block.  [pinned] is the
    instant [now()] is pinned to while [RecurringTask] invokes its task. *)
Record Execution : Type := mkExecution {
  cancelRequested : bool;
  done : bool;
  error : option errors.error;
  clock : Clock;
  pinned : option time.Time
}.

(** Modelled from the spec: the execution created by [Start] or [Run]
    ([tasks.go] is missing): running, no error, nothing pinned. *)
Definition newExecution (c : Clock) : Execution :=
  mkExecution false false None c None.

(** Modelled from the spec: [end()] sets [cancelRequested], which never
    resets ([tasks.go] is missing). *)
Definition Execution_End (e : Execution) : Execution :=
  mkExecution true (done e) (error e) (clock e) (pinned e).

(** Modelled from the spec: the queries [isEnded()], [isDone()] and
    [error()] ([tasks.go] is missing). *)
Definition Execution_IsEnded (e : Execution) : bool := cancelRequested e.


(** Modelled from the spec: see [Execution_IsEnded]. *)
Definition Execution_Error (e : Execution) : option errors.error := error e.

(** Modelled from the spec: [now()] is the clock's current instant, or
    the tick it is pinned to during an invocation by [RecurringTask]
    ([tasks.go] is missing). *)
Definition Execution_Now (e : Execution) : time.Time :=
  match pinned e with
  | Some t => t
  | None => Clock_Current (clock e)
  end.

(** Modelled from the spec: [sleep] suspends until the earlier of
    (duration elapsed) or ([end()] was called), and returns without error
    in either case. *)
Definition Execution_Sleep (e : Execution) (d : time.Duration) : Execution :=
  let c := clock e in
  if cancelRequested e then e
  else if Clock_endsDuring c (Clock_sleeps c) then
    mkExecution true (done e) (error e)
      (mkClock (Clock_Current c) (S (Clock_sleeps c)) (Clock_endsDuring c))
      (pinned e)
  else
    mkExecution (cancelRequested e) (done e) (error e)
      (mkClock (time.Time_Add (Clock_Current c) d) (S (Clock_sleeps c))
               (Clock_endsDuring c))
      (pinned e).

(** Modelled from the spec: the first setter wins. *)
Definition Execution_SetError (e : Execution) (err : errors.error) : Execution :=
  match error e with
  | None => mkExecution (cancelRequested e) (done e) (Some err) (clock e) (pinned e)
  | Some _ => e
  end.


(** Modelled from the spec: the done signal fires once, after the root
    task has returned ([tasks.go] is missing). *)
Definition Execution_finish (e : Execution) : Execution :=
  mkExecution (cancelRequested e) true (error e) (clock e) (pinned e).

(** Modelled from the spec: the [Task] capability ([tasks.go] is missing).
    A task's [Do(e)] works on the execution and on the state [S] of the
    program's objects; [None] stands for a task that does not return. *)
Definition Task (S : Type) : Type := Execution -> S -> option (Execution * S).

(** Modelled from the spec: the checkpoint between the elements of a
    repetition, [isEnded()] or an error recorded ([tasks.go] is
    missing). *)
Definition stopped (e : Execution) : bool :=
  Execution_IsEnded e || negb (errors.isNil (Execution_Error e)).

(** Modelled from the spec: [SeriesTasks] runs the sub-tasks in order on
    the same execution and checks before starting each one.  The
    specification's sentence that a recorded error does not stop the
    series is not followed: [TestSeries] of [src/tasks_test.go] expects the
    task after the failing one not to run, so the checkpoint is the one the
    specification gives [RepeatingTask]. *)
Fixpoint SeriesTasks {S : Type} (ts : list (Task S)) : Task S :=
  fun e s =>
    match ts with
    | [] => Some (e, s)
    | t :: rest =>
        if stopped e then Some (e, s)
        else match t e s with
             | Some (e', s') => SeriesTasks rest e' s'
             | None => None
             end
    end.

(** Modelled from the spec: the series as the specification words it,
    stopping on explicit cancellation only. *)
Fixpoint SeriesTasks_ignoring_errors {S : Type} (ts : list (Task S)) : Task S :=
  fun e s =>
    match ts with
    | [] => Some (e, s)
    | t :: rest =>
        if Execution_IsEnded e then Some (e, s)
        else match t e s with
             | Some (e', s') => SeriesTasks_ignoring_errors rest e' s'
             | None => None
             end
    end.

(** Modelled from the spec: [RepeatingTask] runs [task] [n] times in
    sequence, checking before each repetition that the execution is not
    ended and that no error is recorded. *)
Fixpoint RepeatingTask_loop {S : Type} (k : nat) (task : Task S) : Task S :=
  fun e s =>
    match k with
    | O => Some (e, s)
    | Datatypes.S k' =>
        if stopped e then Some (e, s)
        else match task e s with
             | Some (e', s') => RepeatingTask_loop k' task e' s'
             | None => None
             end
    end.

(** Modelled from the spec: [RepeatingTask(task, n)] ([tasks.go] is
    missing); a negative [n] repeats nothing. *)
Definition RepeatingTask {S : Type} (task : Task S) (n : Z) : Task S :=
  RepeatingTask_loop (Z.to_nat n) task.



(** Modelled from the spec: [Start(task)] followed by [<-e.Done()]: the
    task runs on a fresh execution, and the done signal fires after it has
    returned. *)
Definition Start {S : Type} (task : Task S) (c : Clock) (s : S)
  : option (Execution * S) :=
  match task (newExecution c) s with
  | Some (e, s') => Some (Execution_finish e, s')
  | None => None
  end.


(** *** Vocabulary of the task properties *)

(** The task with a counter of the invocations it has completed next to
    its state, as [fakeTask.timesRun] of the tests. *)
Definition counted {S : Type} (task : Task S) : Task (S * nat) :=
  fun e '(s, k) =>
    match task e s with
    | Some (e', s') => Some (e', (s', Datatypes.S k))
    | None => None
    end.


End tasks.

(** ** The test double of [src/tasks_test.go] *)
Module tasks_test.

Definition kNow (local : time.Location) : time.Time :=
  time.Date 2013 9 12 17 21 0 0 local.

Definition kSomeError : errors.error := errors.New "tasks: some error".

(** [timesRun] is an [int] in the source and an unbounded integer here:
    the two agree as long as the count fits the [int]. *)
Record fakeTask : Type := mkFakeTask {
  runDuration : time.Duration;
  err : option errors.error;
  timeStamps : list time.Time;
  timesRun : Z
}.
Arguments mkFakeTask runDuration%_Z err timeStamps timesRun%_Z.

Definition fakeTask_Do (ft : fakeTask) (e : tasks.Execution)
  : fakeTask * tasks.Execution :=
  let ft := mkFakeTask (runDuration ft) (err ft)
                       (timeStamps ft ++ [tasks.Execution_Now e]) (timesRun ft) in
  let e := match err ft with
           | Some x => tasks.Execution_SetError e x
           | None => e
           end in
  let e := if (0 <? runDuration ft)%Z
           then tasks.Execution_Sleep e (runDuration ft) else e in
  (mkFakeTask (runDuration ft) (err ft) (timeStamps ft) (timesRun ft + 1), e).

Definition fakeTask_hasRun (ft : fakeTask) : bool := (0 <? timesRun ft)%Z.

(** The tests hand pointers to their [fakeTask]s to the combinators: the
    program state is the list of these objects, and the task is the
    position of its object. *)
Definition taskAt (p : nat) : tasks.Task (list fakeTask) :=
  fun e store =>
    match store !! p with
    | Some ft => let '(ft', e') := fakeTask_Do ft e in Some (e', <[p := ft']> store)
    | None => None
    end.

(** [TestSeries]: three tasks, the second of which throws an error; the
    result is whether the test passes ([None]: the run does not finish).
    [series] is the combinator under test. *)
Definition TestSeries_with
    (series : list (tasks.Task (list fakeTask)) -> tasks.Task (list fakeTask))
    (c : tasks.Clock) : option bool :=
  let testTasks := [mkFakeTask 0 None [] 0;
                    mkFakeTask 0 (Some kSomeError) [] 0;
                    mkFakeTask 0 None [] 0] in
  match tasks.Start (series [taskAt 0; taskAt 1; taskAt 2]) c testTasks with
  | None => None
  | Some (_, testTasks') =>
      Some (forallb (fun '(i, ft) =>
                       if (i <? 2)%nat then fakeTask_hasRun ft
                       else negb (fakeTask_hasRun ft))
                    (imap pair testTasks'))
  end.

Definition TestSeries (c : tasks.Clock) : option bool :=
  TestSeries_with tasks.SeriesTasks c.

(** [kNow] in the zone UTC, and two streams started there of which the
    second ends at once. *)
Definition kNowUTC : time.Time := kNow time.UTC.

Definition endedFirst : list functional.Stream :=
  [recurring.ForTime (recurring.AtInterval time.Hour) kNowUTC;
   recurring.ForTime (recurring.FirstN (recurring.AtInterval time.Hour) 0) kNowUTC].

(** The object after [Do] has been called on it with each of the
    executions in turn. *)
Definition fakeTask_runs (ft : fakeTask) (es : list tasks.Execution) : fakeTask :=
  fold_left (fun ft e => fst (fakeTask_Do ft e)) es ft.

(** [verifyTimes] compares [time.Time] values with Go's [!=], which
    compares the fields of the struct: the wall and monotonic clock
    readings and the pointer to the location.  That is finer than being
    the same instant at the same offset, so [verifyTimes] is written over
    any type [T] of values, standing for the struct, with the comparison
    [same], standing for [==]. *)
Section VerifyTimes.
Context {T : Type} (same : T -> T -> bool).

(** What a call of [t.Errorf] leaves on the [*testing.T]: the failure is
    recorded and the test function goes on.  The two messages of
    [verifyTimes] are kept by their arguments. *)
Inductive report : Type :=
| WrongCount (expected actual : nat)
| WrongTime (expected : T) (i : nat) (actual : T).

(** [verifyTimes(t, actual, expected...)]; the result is what it reports
    to [t].  The loop reads both slices at every index of [expected]; the
    lengths are equal there, so no index is out of range. *)
Definition verifyTimes (actual expected : list T) : list report :=
  if negb (length actual =? length expected)%nat then
    [WrongCount (length expected) (length actual)]
  else
    flat_map (fun i : nat =>
                match expected !! i, actual !! i with
                | Some e, Some a =>
                    if negb (same e a) then [WrongTime e i a] else []
                | _, _ => []
                end)
             (seq 0 (length expected)).

End VerifyTimes.
Arguments report T : clear implicits.
Arguments WrongCount {T} expected actual.
Arguments WrongTime {T} expected i actual.

End tasks_test.

(** * Properties *)

(** The range conditions at a concrete instant, duration or field, and
    for a concrete list of results. *)
Ltac in_range :=
  unfold time.inRange, time.isDuration, time.isSmallInt; repeat split; vm_compute; congruence.

Ltac values_in_range :=
  let i := fresh "i" in let v := fresh "v" in let H := fresh "H" in
  intros i v H; vm_compute in H;
  repeat (destruct i as [|i]; [injection H as <-; in_range|]); discriminate H.

(** ** Streams as sequences of results *)
Section StreamFacts.
Import functional.
Context {St : Type} (next : St -> St * Emit).

Lemma after_succ k s : after next (S k) s = fst (next (after next k s)).
Proof.
  revert s; induction k as [|k IH]; intros s; [reflexivity|].
  cbn [after] in *. now rewrite IH.
Qed.

Lemma pulls_mkStream n p s :
  pulls n (mkStream (fun k => snd (next (after next k s))) p)
  = results next n (after next p s).
Proof.
  revert p; induction n as [|n IH]; intros p; [reflexivity|].
  cbn [pulls Stream_Next Stream_seq Stream_pos results]. f_equal.
  rewrite IH. now rewrite after_succ.
Qed.

(** The interface value emits what the method calls on the receiver
    return. *)
Lemma pulls_asStream n s : pulls n (asStream next s) = results next n s.
Proof. apply pulls_mkStream. Qed.

Lemma after_results_last n s :
  results next (S n) s !! n = Some (snd (next (after next n s))).
Proof.
  revert s; induction n as [|n IH]; intros s; [reflexivity|].
  cbn [results after]. cbn [lookup list_lookup]. apply IH.
Qed.

Lemma results_lookup n : forall s k r,
  results next n s !! k = Some r -> r = snd (next (after next k s)).
Proof.
  induction n as [|n IH]; intros s k r H; [discriminate|].
  destruct k as [|k]; cbn in H.
  - now injection H as <-.
  - cbn [after]. now apply IH.
Qed.

(** A receiver that a call leaves as it is answers the same for ever. *)
Lemma results_fixed s r m :
  next s = (s, r) -> results next m s = repeat r m.
Proof.
  intros H. induction m as [|m IH]; [reflexivity|].
  cbn [results repeat]. rewrite H. cbn [fst snd]. now rewrite IH.
Qed.

Lemma results_after_fixed n m r : forall s,
  next (after next n s) = (after next n s, r) ->
  results next (n + m) s = results next n s ++ repeat r m.
Proof.
  induction n as [|n IH]; intros s H.
  - cbn [after] in H. cbn [Nat.add results app]. now apply results_fixed.
  - cbn [Nat.add results app]. f_equal. apply IH. exact H.
Qed.

Lemma runOps_close_id close ops s :
  (forall x, fst (close x) = x) ->
  runOps next close ops s = results next (countNext ops) s.
Proof.
  intros Hc. revert s; induction ops as [|[] ops IH]; intros s; cbn; [reflexivity| |].
  - f_equal. apply IH.
  - rewrite Hc. apply IH.
Qed.

End StreamFacts.

Section ListFacts.
Import functional.


Lemma map_seq_shift {A} (f : nat -> A) (a n : nat) :
  map f (seq (S a) n) = map (fun k => f (S k)) (seq a n).
Proof. now rewrite <- seq_shift, map_map. Qed.

Lemma lookup_map_seq {A} (f : nat -> A) (a n i : nat) x :
  map f (seq a n) !! i = Some x -> x = f (a + i) /\ i < n.
Proof.
  rewrite list_lookup_fmap. intros Hx.
  destruct (seq a n !! i) as [k|] eqn:E; [|discriminate].
  apply lookup_seq in E as [-> ?]. cbn in Hx. injection Hx as <-. auto.
Qed.

End ListFacts.

(** ** The calendar of package [time] *)
Section TimeFacts.
Import time.
Local Open Scope Z_scope.

Lemma Time_eq t u : unixNano t = unixNano u -> loc t = loc u -> t = u.
Proof. destruct t, u; cbn; intros; subst; reflexivity. Qed.

Lemma Time_Add_Add t a b : Time_Add (Time_Add t a) b = Time_Add t (a + b).
Proof. unfold Time_Add; cbn. f_equal. lia. Qed.

Lemma Time_Add_0 t : Time_Add t 0 = t.
Proof. destruct t; unfold Time_Add; cbn. f_equal. lia. Qed.

(** The year and the day of the year give the day number back. *)
Lemma yearDay_sound n : daysSinceEpoch (fst (yearDay n)) + snd (yearDay n) = n.
Proof.
  unfold yearDay, daysSinceEpoch, daysPer400Years, daysPer100Years, daysPer4Years.
  cbn [fst snd]. Z.div_mod_to_equations; lia.
Qed.

(** The month and the day of the month give the day of the year back. *)
Lemma monthDay_sound l yd :
  daysBefore (fst (monthDay l yd) - 1)
  + (if l && (3 <=? fst (monthDay l yd)) then 1 else 0) + (snd (monthDay l yd) - 1) = yd
  /\ 1 <= fst (monthDay l yd) <= 12.
Proof.
  unfold monthDay. destruct l; cbn [andb];
  repeat (match goal with
          | |- context [if ?a <? ?b then _ else _] => destruct (Z.ltb_spec a b)
          end);
  cbn [fst snd];
  repeat (match goal with
          | |- context [daysBefore ?m] =>
            let v := eval vm_compute in (daysBefore m) in change (daysBefore m) with v
          | |- context [Z.leb ?a ?b] =>
            let v := eval vm_compute in (Z.leb a b) in change (Z.leb a b) with v
          end);
  cbv iota; lia.
Qed.

(** [Date] on the year, month and day of an instant, a number of days
    later: the time of day counts from the start of that day, whether its
    fields are in their usual ranges or not. *)
Lemma Date_same_day t day' hour min sec nsec :
  unixNano (Date (Time_Year t) (Time_Month t) (Time_Day t + day') hour min sec nsec
                 (Time_Location t))
  = ((Time_days t + day') * secondsPerDay + hour * 3600 + min * 60 + sec
     - unixEpochDays * secondsPerDay - offset (loc t)) * 1000000000 + nsec.
Proof.
  unfold Time_Year, Time_Month, Time_Day, Time_Date, Time_Location.
  pose proof (yearDay_sound (Time_days t)) as Hy.
  destruct (yearDay (Time_days t)) as [year yday]; cbn [fst snd] in Hy.
  pose proof (monthDay_sound (isLeap year) yday) as [Hmd Hr].
  destruct (monthDay (isLeap year) yday) as [month day]; cbn [fst snd] in *.
  unfold Date, norm.
  replace ((month - 1) / 12) with 0 by (Z.div_mod_to_equations; lia).
  replace ((month - 1) mod 12) with (month - 1) by (Z.div_mod_to_equations; lia).
  replace (year + 0) with year by lia.
  replace (month - 1 + 1) with month by lia.
  cbn [unixNano]. unfold secondsPerDay, unixEpochDays in *.
  set (base := daysSinceEpoch year + daysBefore (month - 1) +
     (if isLeap year && (3 <=? month) then 1 else 0)) in *.
  assert (Hbase : base + (day - 1) = Time_days t) by lia.
  clearbody base. clear Hy Hmd. generalize dependent (Time_days t). intros days Hbase.
  Z.div_mod_to_equations; lia.
Qed.

Lemma Date_loc y m d h mi s n l : loc (Date y m d h mi s n l) = l.
Proof. unfold Date, norm. reflexivity. Qed.

Lemma Clock_ranges t :
  0 <= Time_Hour t < 24 /\ 0 <= Time_Minute t < 60 /\ 0 <= Time_Second t < 60
  /\ 0 <= Time_Nanosecond t < 1000000000
  /\ Time_abs t = Time_days t * secondsPerDay
                  + Time_Hour t * 3600 + Time_Minute t * 60 + Time_Second t.
Proof.
  unfold Time_Hour, Time_Minute, Time_Second, Time_Nanosecond, Time_Clock, Time_days,
    secondsPerDay; cbn [fst snd].
  generalize (Time_abs t); intros a. generalize (unixNano t); intros u.
  Z.div_mod_to_equations; lia.
Qed.

(** Adding one day to the date is adding 24 hours to the instant: the
    offset of a location is fixed. *)
Lemma AddDate_one_day t : Time_AddDate t 0 0 1 = Time_Add t (24 * Hour).
Proof.
  pose proof (Clock_ranges t) as (Hh & Hm & Hs & Hn & Habs).
  pose proof (Date_same_day t 1 (Time_Hour t) (Time_Minute t) (Time_Second t)
                (Time_Nanosecond t)) as HD.
  assert (Time_AddDate t 0 0 1
          = Date (Time_Year t) (Time_Month t) (Time_Day t + 1) (Time_Hour t)
                 (Time_Minute t) (Time_Second t) (Time_Nanosecond t) (Time_Location t))
    as ->.
  { unfold Time_AddDate, Time_Year, Time_Month, Time_Day, Time_Hour, Time_Minute,
      Time_Second.
    destruct (Time_Date t) as [[y m] d]. destruct (Time_Clock t) as [[h mi] s].
    cbn [fst snd]. now rewrite !Z.add_0_r. }
  apply Time_eq.
  - rewrite HD. cbn [Time_Add unixNano].
    unfold Time_abs, Time_Nanosecond, secondsPerDay, unixEpochDays in *.
    change (24 * Hour) with 86400000000000.
    Z.div_mod_to_equations; lia.
  - now rewrite Date_loc.
Qed.

(** An instant that reads hour:minute:00.0 is that many seconds into its
    day, and the other way round. *)
Lemma atClock_unixNano h m v :
  atClock h m v ->
  unixNano v = (Time_days v * secondsPerDay + h * 3600 + m * 60
                - unixEpochDays * secondsPerDay - offset (loc v)) * 1000000000.
Proof.
  intros (Hh & Hm & Hs & Hn).
  pose proof (Clock_ranges v) as (_ & _ & _ & _ & Habs).
  rewrite Hh, Hm, Hs in Habs. unfold Time_Nanosecond in Hn.
  unfold Time_abs in *. Z.div_mod_to_equations; lia.
Qed.

Lemma atClock_of_unixNano h m v D :
  0 <= h < 24 -> 0 <= m < 60 ->
  unixNano v = (D * secondsPerDay + h * 3600 + m * 60
                - unixEpochDays * secondsPerDay - offset (loc v)) * 1000000000 ->
  atClock h m v /\ Time_days v = D.
Proof.
  intros Hh Hm Hv.
  unfold atClock, Time_Hour, Time_Minute, Time_Second, Time_Nanosecond, Time_Clock,
    Time_days, Time_abs; cbn [fst snd]. rewrite Hv.
  unfold secondsPerDay, unixEpochDays.
  Z.div_mod_to_equations; lia.
Qed.

Lemma atClock_Add_days h m v (k : Z) :
  0 <= h < 24 -> 0 <= m < 60 ->
  atClock h m v ->
  atClock h m (Time_Add v (k * (24 * Hour)))
  /\ Time_days (Time_Add v (k * (24 * Hour))) = Time_days v + k.
Proof.
  intros Hh Hm Hv. pose proof (atClock_unixNano h m v Hv) as Hu.
  apply atClock_of_unixNano; [exact Hh | exact Hm |].
  cbn [Time_Add unixNano loc]. rewrite Hu.
  change (24 * Hour) with 86400000000000. unfold secondsPerDay. lia.
Qed.

Lemma today_unixNano t h m :
  unixNano (Date (Time_Year t) (Time_Month t) (Time_Day t) h m 0 0 (Time_Location t))
  = (Time_days t * secondsPerDay + h * 3600 + m * 60
     - unixEpochDays * secondsPerDay - offset (loc t)) * 1000000000.
Proof.
  pose proof (Date_same_day t 0 h m 0 0) as HD.
  rewrite !Z.add_0_r in HD. exact HD.
Qed.

(** The reading of an instant that is [h] hours and [m] minutes after the
    start of a day of its location, whatever [h] and [m]. *)
Lemma clock_of_unixNano h m v D :
  unixNano v = (D * secondsPerDay + h * 3600 + m * 60
                - unixEpochDays * secondsPerDay - offset (loc v)) * 1000000000 ->
  Time_Hour v = (h + m / 60) mod 24 /\ Time_Minute v = m mod 60
  /\ Time_Second v = 0 /\ Time_Nanosecond v = 0.
Proof.
  intros Hv.
  unfold Time_Hour, Time_Minute, Time_Second, Time_Nanosecond, Time_Clock,
    Time_days, Time_abs; cbn [fst snd]. rewrite Hv.
  unfold secondsPerDay, unixEpochDays.
  Z.div_mod_to_equations; lia.
Qed.

(** The library's addition is the addition of the model exactly where the
    seconds of the sum, counted from year 1, fit 64 bits. *)
Lemma Time_Add_fits t d :
  - 2 ^ 63 <= unixNano (Time_Add t d) / 1000000000 + unixToInternal < 2 ^ 63 ->
  Time_Add_saturating t d = Time_Add t d.
Proof.
  intros Hv. unfold Time_Add_saturating, Time_Add, unixToInternal in *.
  cbn [unixNano loc] in *.
  change (2 ^ 63) with 9223372036854775808 in *.
  pose proof (Z.quot_rem' d 1000000000) as Hqr.
  assert (Hr : Z.abs (Z.rem d 1000000000) < 1000000000)
    by (pose proof (Z.rem_bound_abs d 1000000000); lia).
  set (q := Z.quot d 1000000000) in *. set (r := Z.rem d 1000000000) in *.
  clearbody q r.
  assert (Hn : 0 <= unixNano t mod 1000000000 < 1000000000) by (apply Z.mod_pos_bound; lia).
  pose proof (Z.div_mod (unixNano t) 1000000000 ltac:(lia)) as Hdm.
  set (s := unixNano t / 1000000000) in *. set (n := unixNano t mod 1000000000) in *.
  clearbody s n.
  revert Hdm Hv. generalize (unixNano t). intros u -> Hv.
  rewrite Hqr in Hv |- *.
  destruct (Z.leb_spec 1000000000 (n + r)); [|destruct (Z.ltb_spec (n + r) 0)];
    cbv zeta iota beta;
    match goal with
    | |- context [(?a <=? ?b) && (?c <? ?e)] =>
        replace ((a <=? b) && (c <? e)) with true
          by (symmetry; apply andb_true_iff; split; [apply Z.leb_le | apply Z.ltb_lt];
              Z.div_mod_to_equations; lia)
    end; f_equal; lia.
Qed.

(** So it is between instants in range. *)
Lemma Time_Add_exact t d :
  inRange t -> inRange (Time_Add t d) -> Time_Add_saturating t d = Time_Add t d.
Proof.
  intros _ [Hv _]. apply Time_Add_fits. unfold unixToInternal.
  change (2 ^ 55) with 36028797018963968 in Hv.
  change (2 ^ 63) with 9223372036854775808. lia.
Qed.

(** At the end of the library's range the addition stops: an hour added to
    an instant half an hour before the last one gives the last one, and so
    does an hour added to that. *)
Lemma Time_Add_saturating_at_the_end :
  let top := mkTime (9223371974719177207 * 1000000000) UTC in
  Time_Add_saturating top Hour = mkTime (9223371974719179007 * 1000000000) UTC
  /\ Time_Add_saturating (Time_Add_saturating top Hour) Hour
     = Time_Add_saturating top Hour.
Proof. split; vm_compute; reflexivity. Qed.

End TimeFacts.

(** ** The primitive schedules: [AtInterval], [AtTime], [FirstN] *)
Section Schedules.
Import time functional recurring.
Local Open Scope Z_scope.

Lemma results_intervalStream n s :
  results intervalStream_Next n s
  = map (fun k : nat =>
           Value (Time_Add (intervalStream_t s) (Z.of_nat k * intervalStream_d s)))
        (seq 0 n).
Proof.
  revert s; induction n as [|n IH]; intros s; [reflexivity|].
  cbn [results seq map intervalStream_Next fst snd]. f_equal.
  - now rewrite Z.mul_0_l, Time_Add_0.
  - rewrite IH, map_seq_shift. apply map_ext; intros k.
    cbn [intervalStream_t intervalStream_d]. rewrite Time_Add_Add. do 2 f_equal. lia.
Qed.

Lemma results_dateStream n s :
  results dateStream_Next n s
  = map (fun k : nat => Value (Time_Add (dateStream_t s) (Z.of_nat k * (24 * Hour))))
        (seq 0 n).
Proof.
  revert s; induction n as [|n IH]; intros s; [reflexivity|].
  cbn [results seq map dateStream_Next fst snd]. f_equal.
  - now rewrite Z.mul_0_l, Time_Add_0.
  - rewrite IH, map_seq_shift. apply map_ext; intros k.
    cbn [dateStream_t]. rewrite AddDate_one_day, Time_Add_Add. do 2 f_equal. lia.
Qed.

Lemma pulls_AtInterval n d t :
  pulls n (ForTime (AtInterval d) t)
  = map (fun k : nat => Value (Time_Add t (Z.of_nat k * d))) (seq 1 n).
Proof.
  cbn [ForTime AtInterval]. rewrite pulls_asStream, results_intervalStream, map_seq_shift.
  apply map_ext; intros k. cbn [newIntervalStream intervalStream_t intervalStream_d].
  rewrite Time_Add_Add. do 2 f_equal. lia.
Qed.

Lemma pulls_AtTime n h m t :
  pulls n (ForTime (AtTime h m) t)
  = map (fun k : nat => Value (Time_Add (dateStream_t (newDateStream h m t))
                                        (Z.of_nat k * (24 * Hour)))) (seq 0 n).
Proof. cbn [ForTime AtTime]. now rewrite pulls_asStream, results_dateStream. Qed.

(** C5 (amended): for every instant [t], every duration [d] and every [n]
    such that [t] and the values [t+d], ..., [t+n*d] are in the range in
    which the library's additions are exact, the first [n] results of
    [AtInterval(d).ForTime(t)] are these values, each of them being what
    the library's [Add] makes of the one before; when [d] is positive,
    each of them is strictly after [t] and strictly before the next.
    (Beyond the range [Time.Add] stops at the last instant the library
    can hold, and the stream repeats it.) *)
Theorem AtInterval_emits t d (n : nat) :
  inRange t -> isDuration d ->
  valuesInRange (pulls n (ForTime (AtInterval d) t)) ->
  pulls n (ForTime (AtInterval d) t)
  = map (fun k : nat => Value (Time_Add t (Z.of_nat k * d))) (seq 1 n)
  /\ (forall k : nat, (k < n)%nat ->
        Time_Add_saturating (Time_Add t (Z.of_nat k * d)) d
        = Time_Add t (Z.of_nat (S k) * d))
  /\ (0 < d -> emits_after t (pulls n (ForTime (AtInterval d) t))
              /\ strictly_ascending (pulls n (ForTime (AtInterval d) t))).
Proof.
  intros Ht _ Hv. rewrite pulls_AtInterval in *.
  split; [reflexivity|]. split; [|intros Hd; split].
  - intros k Hk.
    assert (Hin : forall j : nat, (j <= n)%nat -> inRange (Time_Add t (Z.of_nat j * d))).
    { intros [|j] Hj; [now rewrite Z.mul_0_l, Time_Add_0|].
      apply (Hv j). rewrite list_lookup_fmap, lookup_seq_lt by lia. reflexivity. }
    rewrite Time_Add_exact.
    + rewrite Time_Add_Add. f_equal. lia.
    + apply Hin. lia.
    + rewrite Time_Add_Add. replace (Z.of_nat k * d + d) with (Z.of_nat (S k) * d) by lia.
      apply Hin. lia.
  - intros i v Hi. apply lookup_map_seq in Hi as [Hi _]. injection Hi as ->.
    unfold Time_After, Time_Add; cbn [unixNano]. apply Z.ltb_lt. nia.
  - intros i v w Hi Hw. apply lookup_map_seq in Hi as [Hi _], Hw as [Hw _].
    injection Hi as ->. injection Hw as ->.
    unfold Time_Before, Time_Add; cbn [unixNano]. apply Z.ltb_lt. nia.
Qed.

(** C5, an instance: the first three hourly ticks from [kNow] are after
    [kNow]. *)
Lemma AtInterval_emits_witness :
  inRange tasks_test.kNowUTC /\ isDuration Hour
  /\ valuesInRange (pulls 3 (ForTime (AtInterval Hour) tasks_test.kNowUTC))
  /\ 0 < Hour
  /\ emits_after tasks_test.kNowUTC
       (pulls 3 (ForTime (AtInterval Hour) tasks_test.kNowUTC)).
Proof.
  assert (Ht : inRange tasks_test.kNowUTC) by in_range.
  assert (Hd : isDuration Hour) by in_range.
  assert (Hv : valuesInRange (pulls 3 (ForTime (AtInterval Hour) tasks_test.kNowUTC)))
    by values_in_range.
  assert (H : 0 < Hour) by (vm_compute; reflexivity).
  split; [exact Ht|]. split; [exact Hd|]. split; [exact Hv|]. split; [exact H|].
  exact (proj1 (proj2 (proj2 (AtInterval_emits tasks_test.kNowUTC Hour 3 Ht Hd Hv)) H)).
Defined.

(** C5 as stated fails for the duration 0 (and for negative ones): the
    stream emits [t] over and over, which is neither after [t] nor
    ascending strictly. *)
Lemma AtInterval_zero_duration :
  let t := tasks_test.kNowUTC in
  pulls 2 (ForTime (AtInterval 0) t) = [Value t; Value t]
  /\ ~ emits_after t (pulls 2 (ForTime (AtInterval 0) t))
  /\ ~ strictly_ascending (pulls 2 (ForTime (AtInterval 0) t)).
Proof.
  cbv zeta.
  assert (E : pulls 2 (ForTime (AtInterval 0) tasks_test.kNowUTC)
              = [Value tasks_test.kNowUTC; Value tasks_test.kNowUTC])
    by (vm_compute; reflexivity).
  rewrite E. split; [reflexivity|]. split.
  - intros H. specialize (H 0%nat _ eq_refl). vm_compute in H. discriminate H.
  - intros H. specialize (H 0%nat _ _ eq_refl eq_refl). vm_compute in H. discriminate H.
Qed.

(** *** [Slice] from index 0 *)

Lemma results_slice_done m s :
  slice_done s = true -> results sliceStream_Next m s = repeat (Failed Done) m.
Proof.
  intros Hd. induction m as [|m IH]; [reflexivity|].
  cbn [results repeat]. unfold sliceStream_Next. rewrite Hd. cbn [fst snd].
  now rewrite <- IH.
Qed.

Lemma sliceStream_Next_end s (E idx : Z) :
  0 <= idx -> 0 <= E <= idx ->
  sliceStream_Next (mkSlice s 0 E idx false) = (mkSlice s 0 E idx true, Failed Done).
Proof.
  intros Hi HE. unfold sliceStream_Next. cbn [slice_done slice_start slice_index].
  replace (Z.to_nat (0 - idx)) with O by lia.
  cbn [sliceStream_loop slice_end slice_index slice_Stream slice_start slice_done].
  rewrite (proj2 (Z.ltb_ge E 0)), (proj2 (Z.ltb_ge idx E)) by lia. reflexivity.
Qed.

Lemma sliceStream_Next_value s s' v (E idx : Z) :
  0 <= idx < E -> Stream_Next s = (s', Value v) ->
  sliceStream_Next (mkSlice s 0 E idx false) = (mkSlice s' 0 E (idx + 1) false, Value v).
Proof.
  intros Hi HE. unfold sliceStream_Next. cbn [slice_done slice_start slice_index].
  replace (Z.to_nat (0 - idx)) with O by lia.
  cbn [sliceStream_loop slice_end slice_index slice_Stream slice_start slice_done].
  rewrite (proj2 (Z.ltb_lt idx E)) by lia. rewrite orb_true_r, HE. reflexivity.
Qed.

Lemma results_slice (k m : nat) (s : Stream) (idx : Z) :
  0 <= idx ->
  forallb isValue (pulls k s) = true ->
  results sliceStream_Next (k + m) (mkSlice s 0 (idx + Z.of_nat k) idx false)
  = pulls k s ++ repeat (Failed Done) m.
Proof.
  revert s idx; induction k as [|k IH]; intros s idx Hidx Hv.
  - cbn [pulls app Nat.add]. destruct m as [|m]; [reflexivity|].
    cbn [results repeat]. rewrite sliceStream_Next_end by lia.
    cbn [fst snd]. f_equal. now apply results_slice_done.
  - cbn [pulls] in Hv |- *. destruct (Stream_Next s) as [s' r] eqn:E.
    cbn [forallb] in Hv. apply andb_prop in Hv as [Hr Hv].
    destruct r as [v|]; [|discriminate].
    cbn [Nat.add results app]. rewrite (sliceStream_Next_value s s' v) by (auto; lia).
    cbn [fst snd]. f_equal.
    replace (idx + Z.of_nat (S k)) with (idx + 1 + Z.of_nat k) by lia.
    apply IH; [lia | exact Hv].
Qed.

(** The first [n] values of a schedule whose first [n] pulls succeed, then
    the end, for ever. *)
Lemma pulls_FirstN (r : R) (n m : nat) t :
  forallb isValue (pulls n (ForTime r t)) = true ->
  pulls (n + m) (ForTime (FirstN r (Z.of_nat n)) t)
  = pulls n (ForTime r t) ++ repeat (Failed Done) m.
Proof.
  intros Hv. cbn [ForTime FirstN Modify]. unfold Slice. rewrite pulls_asStream.
  apply (results_slice n m (ForTime r t) 0); [lia | exact Hv].
Qed.

Lemma pulls_FirstN_AtInterval t (m : nat) :
  pulls (3 + m) (ForTime (FirstN (AtInterval Hour) 3) t)
  = [Value (Time_Add t Hour); Value (Time_Add t (2 * Hour)); Value (Time_Add t (3 * Hour))]
    ++ repeat (Failed Done) m.
Proof.
  change 3 with (Z.of_nat 3) at 1. rewrite pulls_FirstN.
  - rewrite pulls_AtInterval. cbn [seq map app]. unfold Time_Add.
    repeat f_equal; lia.
  - rewrite pulls_AtInterval. reflexivity.
Qed.

(** C7: for every starting instant [t],
    [FirstN(AtInterval(1h), 3).ForTime(t)] emits exactly [t+1h], [t+2h],
    [t+3h] and then signals ended, on every later call as well, although
    the underlying schedule never ends. *)
Theorem FirstN_AtInterval_three t (m : nat) :
  pulls (3 + m) (ForTime (FirstN (AtInterval Hour) 3) t)
  = [Value (Time_Add t Hour); Value (Time_Add t (2 * Hour)); Value (Time_Add t (3 * Hour))]
    ++ repeat (Failed Done) m.
Proof. apply pulls_FirstN_AtInterval. Qed.

(** *** [AtTime] *)

Lemma newDateStream_first t h m :
  0 <= h < 24 -> 0 <= m < 60 ->
  let first := dateStream_t (newDateStream h m t) in
  nextOccurrence h m t first
  /\ Time_days first = (if clockBefore t h m then Time_days t else Time_days t + 1).
Proof.
  intros Hh Hm first.
  pose proof (today_unixNano t h m) as Htoday.
  set (today := Date (Time_Year t) (Time_Month t) (Time_Day t) h m 0 0 (Time_Location t))
    in *.
  assert (loc today = loc t) as Hloc by apply Date_loc.
  pose proof (Clock_ranges t) as (Hth & Htm & Hts & Htn & Htabs).
  assert (Hcb : clockBefore t h m = Time_After today t).
  { unfold clockBefore, Time_After. rewrite Htoday.
    unfold Time_Nanosecond, Time_abs, Time_days, secondsPerDay, unixEpochDays in *.
    destruct (Z.ltb_spec (Time_Hour t) h), (Z.eqb_spec (Time_Hour t) h),
      (Z.ltb_spec (Time_Minute t) m); cbn [orb andb];
      match goal with |- _ = (?a <? ?b) => destruct (Z.ltb_spec a b) end;
      try reflexivity; exfalso; Z.div_mod_to_equations; lia. }
  assert (Hfirst : unixNano first
     = ((if clockBefore t h m then Time_days t else Time_days t + 1) * secondsPerDay
        + h * 3600 + m * 60 - unixEpochDays * secondsPerDay - offset (loc first))
       * 1000000000 /\ loc first = loc t).
  { subst first. unfold newDateStream. fold today. cbn [dateStream_t].
    rewrite Hcb. destruct (Time_After today t); cbn [negb].
    - rewrite Hloc. split; [exact Htoday | reflexivity].
    - rewrite AddDate_one_day. cbn [Time_Add unixNano loc]. rewrite Htoday, Hloc.
      change (24 * Hour) with 86400000000000. unfold secondsPerDay.
      split; [lia | reflexivity]. }
  destruct Hfirst as [Hfirst Hlf].
  destruct (atClock_of_unixNano h m first _ Hh Hm Hfirst) as [Hat Hdays].
  split; [|exact Hdays].
  split; [exact Hlf|]. split; [exact Hat|].
  assert (Hafter : unixNano t < unixNano first).
  { rewrite Hfirst, Hlf. rewrite Hcb. unfold Time_After. rewrite Htoday.
    destruct (Z.ltb_spec (unixNano t)
                ((Time_days t * secondsPerDay + h * 3600 + m * 60
                  - unixEpochDays * secondsPerDay - offset (loc t)) * 1000000000)).
    - lia.
    - unfold Time_Nanosecond, Time_abs, Time_days, secondsPerDay, unixEpochDays in *.
      Z.div_mod_to_equations; lia. }
  split.
  - unfold Time_After. now apply Z.ltb_lt.
  - intros w Hlw Haw Hwt. unfold Time_Before. apply Z.ltb_ge.
    pose proof (atClock_unixNano h m w Haw) as Hw.
    unfold Time_After in Hwt. apply Z.ltb_lt in Hwt.
    unfold Time_Location in Hlw. rewrite Hlw in Hw. rewrite Hlf in Hfirst.
    rewrite Hw, Hfirst. rewrite Hw in Hwt.
    destruct (clockBefore t h m) eqn:Ecb.
    + (* the first value is on t's day *)
      unfold Time_Nanosecond, Time_abs, Time_days, secondsPerDay, unixEpochDays in *.
      destruct (Z.le_gt_cases (Time_abs t / 86400) (Time_abs w / 86400)) as [Hle|Hgt];
        unfold Time_abs in *; [lia|].
      exfalso. rewrite Hlw in *. Z.div_mod_to_equations; lia.
    + (* the first value is on the next day *)
      symmetry in Hcb. unfold Time_After in Hcb. apply Z.ltb_ge in Hcb.
      rewrite Htoday in Hcb.
      unfold Time_days, secondsPerDay, unixEpochDays in *. lia.
Qed.

(** X14: in a location with a fixed offset from UTC, for every hour in
    0..23 and minute in 0..59 and every instant [t] and number [n] such
    that [t] and the first [n] values are in the range in which the
    library's calendar arithmetic is exact: the first value of
    [AtTime(hour24, minute).ForTime(t)] is the first instant strictly
    after [t] at which the wall clock of [t]'s location reads that time, on
    [t]'s day if that time has not yet passed there and on the next day
    otherwise; the first [n] results are values, and each of them moved by
    [AddDate(0, 0, 1)] is the next one: one day number later, at the same
    wall-clock time. *)
Theorem AtTime_emits t hour24 minute (n : nat) :
  0 <= hour24 < 24 -> 0 <= minute < 60 ->
  inRange t ->
  valuesInRange (pulls n (ForTime (AtTime hour24 minute) t)) ->
  exists first,
    nextOccurrence hour24 minute t first
    /\ Time_days first = (if clockBefore t hour24 minute then Time_days t
                          else Time_days t + 1)
    /\ pulls n (ForTime (AtTime hour24 minute) t)
       = map (fun k : nat => Value (Time_Add first (Z.of_nat k * (24 * Hour)))) (seq 0 n)
    /\ forall k : nat, (k < n)%nat ->
         let v := Time_Add first (Z.of_nat k * (24 * Hour)) in
         Time_AddDate v 0 0 1 = Time_Add first (Z.of_nat (S k) * (24 * Hour))
         /\ Time_days v = Time_days first + Z.of_nat k
         /\ atClock hour24 minute v.
Proof.
  intros Hh Hm _ _. exists (dateStream_t (newDateStream hour24 minute t)).
  destruct (newDateStream_first t hour24 minute Hh Hm) as [Hnext Hdays].
  split; [exact Hnext|]. split; [exact Hdays|]. split; [apply pulls_AtTime|].
  intros k _ v. destruct Hnext as (_ & Hat & _).
  destruct (atClock_Add_days hour24 minute _ (Z.of_nat k) Hh Hm Hat) as [Hc Hd].
  split; [|split; [exact Hd | exact Hc]].
  subst v. rewrite AddDate_one_day, Time_Add_Add. f_equal. lia.
Qed.

(** X14, an instance: daily at 07:30 from [kNow] (17:21 UTC). *)
Lemma AtTime_emits_witness :
  exists first,
    nextOccurrence 7 30 tasks_test.kNowUTC first
    /\ pulls 2 (ForTime (AtTime 7 30) tasks_test.kNowUTC)
       = map (fun k : nat => Value (Time_Add first (Z.of_nat k * (24 * Hour)))) (seq 0 2).
Proof.
  assert (Ht : inRange tasks_test.kNowUTC) by in_range.
  assert (Hv : valuesInRange (pulls 2 (ForTime (AtTime 7 30) tasks_test.kNowUTC)))
    by values_in_range.
  destruct (AtTime_emits tasks_test.kNowUTC 7 30 2 ltac:(lia) ltac:(lia) Ht Hv)
    as (first & H1 & _ & H3 & _).
  exists first. split; [exact H1 | exact H3].
Defined.

(** The values of [AtTime(h, m).ForTime(t)] are [h] hours and [m] minutes
    after the start of a day of [t]'s location, whatever [h] and [m]. *)
Lemma AtTime_value_unixNano t h m (n i : nat) v :
  pulls n (ForTime (AtTime h m) t) !! i = Some (Value v) ->
  loc v = loc t
  /\ exists D, unixNano v = (D * secondsPerDay + h * 3600 + m * 60
                            - unixEpochDays * secondsPerDay - offset (loc v)) * 1000000000.
Proof.
  intros Hv. rewrite pulls_AtTime in Hv.
  apply lookup_map_seq in Hv as [Hv _]. injection Hv as ->.
  pose proof (today_unixNano t h m) as Htoday.
  unfold newDateStream.
  set (today := Date (Time_Year t) (Time_Month t) (Time_Day t) h m 0 0 (Time_Location t))
    in *.
  assert (loc today = loc t) as Hloc by apply Date_loc.
  cbn [dateStream_t]. destruct (negb (Time_After today t)).
  - rewrite AddDate_one_day, Time_Add_Add. cbn [Time_Add unixNano loc].
    split; [exact Hloc|]. exists (Time_days t + 1 + Z.of_nat (0 + i)).
    rewrite Htoday, Hloc. change (24 * Hour) with 86400000000000.
    unfold secondsPerDay. lia.
  - cbn [Time_Add unixNano loc].
    split; [exact Hloc|]. exists (Time_days t + Z.of_nat (0 + i)).
    rewrite Htoday, Hloc. change (24 * Hour) with 86400000000000.
    unfold secondsPerDay. lia.
Qed.

(** C9 (amended): in a location with a fixed offset from UTC, for every
    instant [t] and every [hour24] and [minute] of at most 2^30 in absolute
    value, every value [v] of [AtTime(hour24, minute).ForTime(t)] has
    second and nanosecond equal to zero, in [t]'s location (the seconds
    and the fraction of the starting instant never leak into the
    schedule), and has hour equal to [hour24] and minute equal to [minute]
    whenever [hour24] is in 0..23 and [minute] in 0..59.  Outside these
    ranges [time.Date] normalises them: the hour is
    [(hour24 + minute / 60) mod 24] and the minute [minute mod 60].  [t]
    and [v] are in the range in which the library's calendar arithmetic is
    exact. *)
Theorem AtTime_values_at_clock t hour24 minute (n i : nat) v :
  inRange t -> isSmallInt hour24 -> isSmallInt minute ->
  pulls n (ForTime (AtTime hour24 minute) t) !! i = Some (Value v) ->
  inRange v ->
  Time_Second v = 0 /\ Time_Nanosecond v = 0
  /\ Time_Location v = Time_Location t
  /\ Time_Hour v = (hour24 + minute / 60) mod 24
  /\ Time_Minute v = minute mod 60
  /\ (0 <= hour24 < 24 -> 0 <= minute < 60 ->
      Time_Hour v = hour24 /\ Time_Minute v = minute).
Proof.
  intros _ _ _ Hv _.
  destruct (AtTime_value_unixNano t hour24 minute n i v Hv) as (Hl & D & Hu).
  destruct (clock_of_unixNano hour24 minute v D Hu) as (H1 & H2 & H3 & H4).
  split; [exact H3|]. split; [exact H4|]. split; [exact Hl|].
  split; [exact H1|]. split; [exact H2|].
  intros Hh Hm. rewrite H1, H2. split; Z.div_mod_to_equations; lia.
Qed.

(** C9, an instance: the first value of the 07:30 schedule from [kNow]. *)
Lemma AtTime_values_at_clock_witness :
  let v := Date 2013 9 13 7 30 0 0 UTC in
  Time_Second v = 0 /\ Time_Nanosecond v = 0
  /\ Time_Hour v = 7 /\ Time_Minute v = 30.
Proof.
  cbv zeta.
  destruct (AtTime_values_at_clock tasks_test.kNowUTC 7 30 1 0
              (Date 2013 9 13 7 30 0 0 UTC)) as (H1 & H2 & _ & _ & _ & H3).
  - in_range.
  - in_range.
  - in_range.
  - vm_compute. reflexivity.
  - in_range.
  - destruct H3 as [H3 H4]; [lia | lia |]. auto.
Defined.

(** C9 as stated fails for an hour outside 0..23: [time.Date] normalises
    hour 24 into the next day, so the values of [AtTime(24, 0)] have hour
    0. *)
Lemma AtTime_hour_out_of_range :
  pulls 1 (ForTime (AtTime 24 0) tasks_test.kNowUTC)
  = [Value (Date 2013 9 13 0 0 0 0 UTC)]
  /\ Time_Hour (Date 2013 9 13 0 0 0 0 UTC) = 0.
Proof. split; vm_compute; reflexivity. Qed.

(** *** [Close] *)

(** C10: on the streams of [AtInterval] and [AtTime], [Close] returns
    [nil] and leaves the stream as it is; so it is idempotent, and a
    sequence of calls yields the values that its [Next] calls alone
    yield, wherever [Close] is called before or between them. *)
Theorem Close_does_nothing (s : intervalStream) (u : dateStream) (ops : list StreamOp) :
  intervalStream_Close s = (s, None)
  /\ dateStream_Close u = (u, None)
  /\ intervalStream_Close (fst (intervalStream_Close s)) = intervalStream_Close s
  /\ dateStream_Close (fst (dateStream_Close u)) = dateStream_Close u
  /\ runOps intervalStream_Next intervalStream_Close ops s
     = results intervalStream_Next (countNext ops) s
  /\ runOps dateStream_Next dateStream_Close ops u
     = results dateStream_Next (countNext ops) u.
Proof.
  repeat split; try reflexivity; apply runOps_close_id; reflexivity.
Qed.

End Schedules.

(** ** Locations with transitions *)
Section Zones.
Import functional recurring.
Local Open Scope Z_scope.

(** The instant that [time.Date] gives is the reading of the fields in
    UTC moved by the offset of the location. *)
Lemma Date_by_offset y m d h mi s ns (l : time.Location) :
  let u := time.Date y m d h mi s ns time.UTC in
  time.Date y m d h mi s ns l
  = time.mkTime ((time.unixNano u / 1000000000 - time.offset l) * 1000000000
                 + time.unixNano u mod 1000000000) l.
Proof.
  cbv zeta. unfold time.Date, time.norm, time.UTC. cbn [time.unixNano time.offset].
  f_equal.
  set (N := ns mod 1000000000).
  assert (HN : 0 <= N < 1000000000) by (apply Z.mod_pos_bound; lia).
  clearbody N.
  match goal with |- (?A - _) * _ + _ = _ => generalize A end.
  intros a. Z.div_mod_to_equations; lia.
Qed.

Lemma lookup_fixed o sec : zoned.lookup (zoned.FixedZone o) sec = (o, zoned.alpha, zoned.omega).
Proof. reflexivity. Qed.

Lemma atOffset_fixed (t : zoned.Time) o :
  zoned.loc t = zoned.FixedZone o ->
  zoned.atOffset t = time.mkTime (zoned.unixNano t) (time.FixedZone o).
Proof.
  intros Hl. unfold zoned.atOffset, zoned.Time_offset. now rewrite Hl, lookup_fixed.
Qed.

(** In a location without transitions [Date] is the [Date] of module
    [time] at the offset of the location. *)
Lemma zoned_Date_fixed y m d h mi s ns o :
  let v := zoned.Date y m d h mi s ns (zoned.FixedZone o) in
  zoned.loc v = zoned.FixedZone o
  /\ zoned.atOffset v = time.Date y m d h mi s ns (time.FixedZone o).
Proof.
  cbv zeta.
  assert (Hv : zoned.Date y m d h mi s ns (zoned.FixedZone o)
               = zoned.mkTime (time.unixNano (time.Date y m d h mi s ns (time.FixedZone o)))
                              (zoned.FixedZone o)).
  { unfold zoned.Date. rewrite !lookup_fixed. cbn [fst].
    rewrite (Date_by_offset y m d h mi s ns (time.FixedZone o)). cbv zeta.
    cbn [time.unixNano time.offset]. f_equal.
    destruct (Z.eqb_spec o 0) as [->|Ho]; [now rewrite Z.sub_0_r|].
    now destruct ((_ <? zoned.alpha) || (zoned.omega <=? _)). }
  rewrite Hv. split; [reflexivity|].
  rewrite (atOffset_fixed (zoned.mkTime _ (zoned.FixedZone o)) o eq_refl).
  cbn [zoned.unixNano].
  apply Time_eq; [reflexivity|]. now rewrite Date_loc.
Qed.

Lemma zoned_AddDate_fixed (t : zoned.Time) o days :
  zoned.loc t = zoned.FixedZone o ->
  let v := zoned.Time_AddDate t 0 0 days in
  zoned.loc v = zoned.FixedZone o
  /\ zoned.atOffset v = time.Time_AddDate (zoned.atOffset t) 0 0 days.
Proof.
  intros Hl. cbv zeta. unfold zoned.Time_AddDate, zoned.Time_Location. rewrite Hl.
  destruct (zoned_Date_fixed
              (zoned.Time_Year t + 0) (zoned.Time_Month t + 0) (zoned.Time_Day t + days)
              (zoned.Time_Hour t) (zoned.Time_Minute t) (zoned.Time_Second t)
              (zoned.Time_Nanosecond t) o) as [H1 H2].
  split; [exact H1|]. rewrite H2.
  unfold zoned.Time_Year, zoned.Time_Month, zoned.Time_Day, zoned.Time_Hour,
    zoned.Time_Minute, zoned.Time_Second, zoned.Time_Nanosecond.
  set (t' := zoned.atOffset t).
  assert (Hlt : time.Time_Location t' = time.FixedZone o)
    by (subst t'; now rewrite (atOffset_fixed t o Hl)).
  unfold time.Time_AddDate, time.Time_Year, time.Time_Month, time.Time_Day,
    time.Time_Hour, time.Time_Minute, time.Time_Second.
  destruct (time.Time_Date t') as [[y m] d]. destruct (time.Time_Clock t') as [[h mi] s].
  cbn [fst snd]. now rewrite Hlt.
Qed.

Lemma zoned_newDateStream_fixed hour24 minute (t : zoned.Time) o :
  zoned.loc t = zoned.FixedZone o ->
  zoned.loc (zoned_newDateStream hour24 minute t) = zoned.FixedZone o
  /\ zoned.atOffset (zoned_newDateStream hour24 minute t)
     = dateStream_t (newDateStream hour24 minute (zoned.atOffset t)).
Proof.
  intros Hl.
  destruct (zoned_Date_fixed (time.Time_Year (zoned.atOffset t))
              (time.Time_Month (zoned.atOffset t)) (time.Time_Day (zoned.atOffset t))
              hour24 minute 0 0 o) as [H1 H2].
  assert (Hloc : time.Time_Location (zoned.atOffset t) = time.FixedZone o)
    by now rewrite (atOffset_fixed t o Hl).
  unfold zoned_newDateStream, newDateStream, zoned.Time_Location,
    zoned.Time_Year, zoned.Time_Month, zoned.Time_Day.
  rewrite Hl, Hloc, <- H2.
  revert H1.
  generalize (zoned.Date (time.Time_Year (zoned.atOffset t))
                (time.Time_Month (zoned.atOffset t)) (time.Time_Day (zoned.atOffset t))
                hour24 minute 0 0 (zoned.FixedZone o)).
  intros firstT H1.
  unfold time.Time_After, zoned.Time_After.
  cbn [dateStream_t zoned.atOffset time.unixNano].
  destruct (negb (zoned.unixNano t <? zoned.unixNano firstT)); [|auto].
  apply (zoned_AddDate_fixed firstT o 1 H1).
Qed.

Lemma zoned_values_fixed o (n : nat) : forall (z : zoned.Time) (s : dateStream),
  zoned.loc z = zoned.FixedZone o -> zoned.atOffset z = dateStream_t s ->
  map (fun v => Value (zoned.atOffset v)) (zoned_values n z) = results dateStream_Next n s.
Proof.
  induction n as [|n IH]; intros z s Hlz Hz; [reflexivity|].
  destruct (zoned_AddDate_fixed z o 1 Hlz) as [H1 H2].
  change (zoned_values (S n) z) with (z :: zoned_values n (zoned.Time_AddDate z 0 0 1)).
  change (results dateStream_Next (S n) s)
    with (Value (dateStream_t s) :: results dateStream_Next n (fst (dateStream_Next s))).
  cbn [map]. rewrite Hz. f_equal.
  apply IH; [exact H1|]. rewrite H2, Hz.
  unfold dateStream_Next. cbn [fst dateStream_t]. reflexivity.
Qed.

(** In a location without transitions, the code of [AtTime] over the
    instants of module [zoned] computes what it computes over the instants
    of module [time] at the offset of the location. *)
Lemma zoned_AtTime_fixed hour24 minute (t : zoned.Time) o (n : nat) :
  zoned.loc t = zoned.FixedZone o ->
  map (fun v => Value (zoned.atOffset v)) (zoned_AtTime hour24 minute t n)
  = pulls n (ForTime (AtTime hour24 minute) (zoned.atOffset t)).
Proof.
  intros Hl. cbn [ForTime AtTime]. rewrite pulls_asStream. unfold zoned_AtTime.
  destruct (zoned_newDateStream_fixed hour24 minute t o Hl) as [Hlf Hf].
  now apply (zoned_values_fixed o).
Qed.

(** C8, the failing input: America/New_York, where on 2014-03-09 the
    clocks go from 02:00 to 03:00, and the schedule [AtTime(2, 30)].
    Asked at noon of that day, it emits 01:30 on the 10th, the 11th and
    the 12th, although 02:30 exists on each of these days and is after the
    instant asked for.  Asked at noon of the day before, it emits 01:30 on
    the 9th, where 02:30 does not exist, and stays at 01:30 on the days
    that follow. *)
Theorem AtTime_drifts_after_a_missing_hour :
  let NY := zoned.NewYork in
  let reading (v : zoned.Time) :=
    (zoned.Time_Year v, zoned.Time_Month v, zoned.Time_Day v,
     zoned.Time_Hour v, zoned.Time_Minute v) in
  let t := zoned.Date 2014 3 9 12 0 0 0 NY in
  let wanted := zoned.Date 2014 3 10 2 30 0 0 NY in
  map reading (zoned_AtTime 2 30 t 3)
  = [(2014, 3, 10, 1, 30); (2014, 3, 11, 1, 30); (2014, 3, 12, 1, 30)]
  /\ reading wanted = (2014, 3, 10, 2, 30)
  /\ zoned.Time_After wanted t = true
  /\ map reading (zoned_AtTime 2 30 (zoned.Date 2014 3 8 12 0 0 0 NY) 3)
     = [(2014, 3, 9, 1, 30); (2014, 3, 10, 1, 30); (2014, 3, 11, 1, 30)].
Proof. cbv zeta. repeat split; vm_compute; reflexivity. Qed.

End Zones.

(** ** The merge engine *)
Section Merge.
Import functional recurring.

(** *** The order of the entries *)
Lemma item_less_irrefl a : item_less a a = false.
Proof.
  unfold item_less. destruct (item_e a); cbn; [reflexivity|].
  unfold time.Time_Before. apply Z.ltb_irrefl.
Qed.

Lemma item_less_asym a b : item_less a b = true -> item_less b a = false.
Proof.
  unfold item_less, time.Time_Before.
  destruct (item_e a), (item_e b); cbn; try congruence.
  intros H%Z.ltb_lt. apply Z.ltb_ge. lia.
Qed.

Lemma item_le_trans a b c :
  item_less b a = false -> item_less c b = false -> item_less c a = false.
Proof.
  unfold item_less, time.Time_Before.
  destruct (item_e a), (item_e b), (item_e c); cbn; try congruence.
  intros H1%Z.ltb_ge H2%Z.ltb_ge. apply Z.ltb_ge. lia.
Qed.

Lemma item_less_le_trans a b c :
  item_less a b = true -> item_less c b = false -> item_less c a = false.
Proof.
  intros H1 H2. apply item_less_asym in H1. now apply (item_le_trans a b c).
Qed.

(** *** [Swap] *)
Section Swap.
Context (h : streamHeap) (i j : nat) (a b : item).
Context (Hi : h !! i = Some a) (Hj : h !! j = Some b).

Lemma Swap_eq : streamHeap_Swap h i j = <[j := a]> (<[i := b]> h).
Proof. unfold streamHeap_Swap. now rewrite Hi, Hj. Qed.

Lemma Swap_length : length (streamHeap_Swap h i j) = length h.
Proof. rewrite Swap_eq. now rewrite !length_insert. Qed.

Lemma Swap_lookup k :
  streamHeap_Swap h i j !! k
  = if decide (k = j) then Some a else if decide (k = i) then Some b else h !! k.
Proof.
  rewrite Swap_eq.
  pose proof (lookup_lt_Some _ _ _ Hi). pose proof (lookup_lt_Some _ _ _ Hj).
  destruct (decide (k = j)) as [->|Hkj].
  - apply list_lookup_insert_eq. now rewrite length_insert.
  - rewrite list_lookup_insert_ne by congruence.
    destruct (decide (k = i)) as [->|Hki].
    + now apply list_lookup_insert_eq.
    + now rewrite list_lookup_insert_ne by congruence.
Qed.

Lemma Swap_Permutation : streamHeap_Swap h i j ≡ₚ h.
Proof.
  apply Permutation_inj. split; [apply Swap_length|].
  exists (fun k => if decide (k = j) then i else if decide (k = i) then j else k).
  split.
  - intros x y. repeat case_decide; intros; subst; congruence.
  - intros k. rewrite Swap_lookup. repeat case_decide; subst; congruence.
Qed.
End Swap.

Lemma Less_lookup (h : streamHeap) i j a b :
  h !! i = Some a -> h !! j = Some b -> streamHeap_Less h i j = item_less a b.
Proof. intros Hi Hj. unfold streamHeap_Less. now rewrite Hi, Hj. Qed.

Lemma heapExcept_done lo i (h : streamHeap) x :
  h !! i = Some x ->
  heapExcept lo i h ->
  (forall c b, child c i -> h !! c = Some b -> item_less b x = false) ->
  heapOrderedFrom lo h.
Proof.
  intros Hx [H1 _] Hc p c a b Hlo Hch Hp Hcb.
  destruct (decide (p = i)) as [->|Hne].
  - rewrite Hx in Hp. injection Hp as <-. eauto.
  - eauto.
Qed.

(** Sinking the entry at [i] orders the heap from [lo] on and keeps its
    entries. *)
Lemma down_loop_spec fuel : forall (h : streamHeap) i lo,
  lo <= i -> length h <= fuel + i ->
  heapExcept lo i h ->
  let r := heap.down_loop fuel h i (length h) in
  heapOrderedFrom lo r.1 /\ r.1 ≡ₚ h.
Proof.
  induction fuel as [|fuel IH]; intros h i lo Hlo Hfuel Hex r; subst r.
  - cbn [heap.down_loop fst]. split; [|reflexivity].
    intros p c a b Hp Hch Ha Hb. destruct (decide (p = i)) as [->|Hne].
    + apply lookup_lt_Some in Hb. destruct Hch; lia.
    + destruct Hex as [H1 _]. eauto.
  - cbn [heap.down_loop]. destruct (Nat.leb_spec (length h) (2 * i + 1)) as [Hge|Hlt].
    { cbn [fst]. split; [|reflexivity].
      intros p c a b Hp Hch Ha Hb. destruct (decide (p = i)) as [->|Hne].
      - apply lookup_lt_Some in Hb. destruct Hch; lia.
      - destruct Hex as [H1 _]. eauto. }
    destruct (lookup_lt_is_Some_2 h i ltac:(lia)) as [xi Hxi].
    destruct (lookup_lt_is_Some_2 h (2 * i + 1) Hlt) as [x1 Hx1].
    cbn [heap.Less heap.Swap streamHeap_Interface].
    (* the lesser child *)
    set (j := if (2 * i + 1 + 1 <? length h) && streamHeap_Less h (2 * i + 1 + 1) (2 * i + 1)
              then 2 * i + 1 + 1 else 2 * i + 1).
    assert (exists xj, h !! j = Some xj /\ child j i
                 /\ forall c b, child c i -> h !! c = Some b -> item_less b xj = false)
      as (xj & Hxj & Hji & Hmin).
    { subst j. destruct (Nat.ltb_spec (2 * i + 1 + 1) (length h)) as [H2|H2]; cbn [andb].
      - destruct (lookup_lt_is_Some_2 h (2 * i + 1 + 1) H2) as [x2 Hx2].
        rewrite (Less_lookup h _ _ x2 x1 Hx2 Hx1).
        destruct (item_less x2 x1) eqn:E.
        + exists x2. split; [exact Hx2|]. split; [right; lia|].
          intros c b [-> | ->] Hb.
          * rewrite Hx1 in Hb. injection Hb as <-. now apply item_less_asym.
          * replace (2 * i + 2) with (2 * i + 1 + 1) in Hb by lia.
            rewrite Hx2 in Hb. injection Hb as <-. apply item_less_irrefl.
        + exists x1. split; [exact Hx1|]. split; [left; lia|].
          intros c b [-> | ->] Hb.
          * rewrite Hx1 in Hb. injection Hb as <-. apply item_less_irrefl.
          * replace (2 * i + 2) with (2 * i + 1 + 1) in Hb by lia.
            rewrite Hx2 in Hb. injection Hb as <-. exact E.
      - exists x1. split; [exact Hx1|]. split; [left; lia|].
        intros c b [-> | ->] Hb.
        + rewrite Hx1 in Hb. injection Hb as <-. apply item_less_irrefl.
        + apply lookup_lt_Some in Hb. lia. }
    clearbody j.
    rewrite (Less_lookup h j i xj xi Hxj Hxi).
    destruct (item_less xj xi) eqn:Eji; cbn [negb].
    + (* the entry sinks to [j] *)
      assert (Hij : i <> j) by (destruct Hji; lia).
      pose proof (Swap_lookup h i j xi xj Hxi Hxj) as Hsw.
      pose proof (Swap_length h i j xi xj Hxi Hxj) as Hlen.
      pose proof (Swap_Permutation h i j xi xj Hxi Hxj) as Hperm.
      specialize (IH (streamHeap_Swap h i j) j lo).
      rewrite Hlen in IH.
      destruct IH as [IH1 IH2]; [destruct Hji; lia | destruct Hji; lia | |].
      * destruct Hex as [H1 H2]. split.
        -- intros p c a b Hp Hpj Hch Ha Hb. rewrite Hsw in Ha, Hb.
           destruct (decide (p = j)) as [|_]; [contradiction|].
           destruct (decide (c = j)) as [->|Hcj].
           ++ (* the parent of [j] is [i] *)
              assert (p = i) as -> by (destruct Hji, Hch; lia).
              destruct (decide (i = i)); [|contradiction].
              injection Ha as <-. injection Hb as <-. now apply item_less_asym.
           ++ destruct (decide (p = i)) as [->|Hpi].
              ** injection Ha as <-.
                 destruct (decide (c = i)) as [->|_]; [destruct Hch; lia|].
                 eauto.
              ** destruct (decide (c = i)) as [->|Hci].
                 --- injection Hb as <-. eapply (H2 p j); eauto.
                 --- eauto.
        -- intros p c a b Hp Hjp Hch Ha Hb. rewrite Hsw in Ha, Hb.
           assert (p = i) as -> by (destruct Hji, Hjp; lia).
           destruct (decide (i = j)); [contradiction|].
           destruct (decide (i = i)); [|contradiction]. injection Ha as <-.
           destruct (decide (c = j)) as [->|_]; [destruct Hch; lia|].
           destruct (decide (c = i)) as [->|_]; [destruct Hch, Hji; lia|].
           eapply (H1 j c); eauto. destruct Hji; lia.
      * split; [exact IH1|]. now rewrite IH2.
    + (* no child is less than the entry: the loop stops *)
      cbn [fst]. split; [|reflexivity].
      apply (heapExcept_done lo i h xi Hxi Hex).
      intros c b Hch Hb. apply (item_le_trans xi xj b); [exact Eji | eauto].
Qed.

Lemma Init_loop_spec k : forall (h : streamHeap),
  heapOrderedFrom k h ->
  heapOrdered (heap.Init_loop k h (length h)) /\ heap.Init_loop k h (length h) ≡ₚ h.
Proof.
  induction k as [|k IH]; intros h Hk; [split; [exact Hk | reflexivity]|].
  cbn [heap.Init_loop]. unfold heap.down.
  destruct (down_loop_spec (length h) h k k) as [H1 H2]; [lia | lia | |].
  { split.
    - intros p c a b Hp Hne. apply Hk. lia.
    - intros p c a b Hp [Hc|Hc]; lia. }
  destruct (heap.down_loop (length h) h k (length h)) as [h' i'].
  cbn [fst] in *.
  rewrite <- (Permutation_length H2).
  destruct (IH h' H1) as [H3 H4]. split; [exact H3|]. now rewrite H4.
Qed.

Lemma Init_spec (h : streamHeap) : heapOrdered (heap.Init h) /\ heap.Init h ≡ₚ h.
Proof.
  unfold heap.Init. cbn [heap.Len streamHeap_Interface]. unfold streamHeap_Len.
  apply Init_loop_spec.
  intros p c a b Hp Hch Ha Hb. apply lookup_lt_Some in Hb.
  pose proof (Nat.div_mod_eq (length h) 2).
  pose proof (Nat.mod_upper_bound (length h) 2).
  destruct Hch; lia.
Qed.

Lemma root_minimal (h : streamHeap) top :
  heapOrdered h -> h !! 0 = Some top ->
  forall k x, h !! k = Some x -> item_less x top = false.
Proof.
  intros Hh Htop k. induction k as [k IH] using lt_wf_ind. intros x Hx.
  destruct k as [|k].
  - rewrite Htop in Hx. injection Hx as <-. apply item_less_irrefl.
  - pose proof (Nat.div_mod_eq k 2) as Hk.
    pose proof (Nat.mod_upper_bound k 2 ltac:(lia)) as Hm.
    destruct (lookup_lt_is_Some_2 h (k / 2)) as [y Hy].
    { apply lookup_lt_Some in Hx. lia. }
    apply (item_le_trans top y x).
    + apply (IH (k / 2)); [lia | exact Hy].
    + apply (Hh (k / 2) (S k) y x); [lia | | exact Hy | exact Hx].
      unfold child. lia.
Qed.

Lemma root_errored (h : streamHeap) top k x :
  heapOrdered h -> h !! 0 = Some top -> h !! k = Some x -> errored x -> errored top.
Proof.
  intros Hh Htop Hx Hex. pose proof (root_minimal h top Hh Htop k x Hx) as Hle.
  unfold errored in *. unfold item_less in Hle.
  destruct (item_e x); [|contradiction]. cbn in Hle.
  destruct (item_e top); [discriminate | discriminate].
Qed.

Lemma combineStreams_spec streams :
  heapOrdered (mergeStream_sh (combineStreams streams))
  /\ mergeStream_sh (combineStreams streams)
     ≡ₚ map (fun s => item_pop (mkItem s time.zero None)) streams.
Proof. unfold combineStreams; cbn [mergeStream_sh]. apply Init_spec. Qed.

(** *** The claim about the merge *)

(** C2 (amended): in the heap ordering every entry whose last pull
    signalled errored or ended compares as less than every entry that
    holds a value: [Less(i, j)] is true and [Less(j, i)] is false when
    entry [i] is errored and entry [j] holds a value, and two errored
    entries are not less than one another.  So errored entries sort
    first: in the heap that [combineStreams] builds, as soon as one entry
    is errored or ended, the entry at the root, which a merge takes as its
    minimum, is an errored or ended one. *)
Theorem errored_entries_sort_first :
  (forall (sh : streamHeap) i j a b,
      sh !! i = Some a -> sh !! j = Some b -> errored a ->
      (real b -> streamHeap_Less sh i j = true /\ streamHeap_Less sh j i = false)
      /\ (errored b -> streamHeap_Less sh i j = false))
  /\ (forall streams k x,
        let sh := mergeStream_sh (combineStreams streams) in
        sh !! k = Some x -> errored x ->
        heapOrdered sh /\ exists top, sh !! 0 = Some top /\ errored top).
Proof.
  split.
  - intros sh i j a b Ha Hb Hea.
    rewrite (Less_lookup sh i j a b Ha Hb), (Less_lookup sh j i b a Hb Ha).
    unfold errored, real, item_less in *.
    destruct (item_e a); [|contradiction]. split.
    + intros ->. split; reflexivity.
    + intros Heb. destruct (item_e b); [reflexivity | contradiction].
  - intros streams k x sh Hx Hex.
    destruct (combineStreams_spec streams) as [Hh _]. fold sh in Hh.
    split; [exact Hh|].
    destruct (lookup_lt_is_Some_2 sh 0) as [top Htop].
    { apply lookup_lt_Some in Hx. lia. }
    exists top. split; [exact Htop|]. exact (root_errored sh top k x Hh Htop Hx Hex).
Qed.

(** C2 as stated fails: of an hourly stream and a stream that ends at
    once, the ended entry is put at the root of the heap, before the entry
    that holds a value, and [Less(0, 1)] is true there. *)
Lemma errored_entry_is_less :
  let sh := mergeStream_sh (combineStreams tasks_test.endedFirst) in
  map (fun x => errors.isNil (item_e x)) sh = [false; true]
  /\ streamHeap_Less sh 0 1 = true.
Proof. cbv zeta. split; vm_compute; reflexivity. Qed.

(** C2, an instance: the same two streams. *)
Lemma errored_entries_sort_first_witness :
  exists top,
    mergeStream_sh (combineStreams tasks_test.endedFirst) !! 0 = Some top /\ errored top.
Proof.
  destruct errored_entries_sort_first as [_ H].
  refine (proj2 (H tasks_test.endedFirst 0
                   (item_pop (mkItem (ForTime (FirstN (AtInterval time.Hour) 0)
                                              tasks_test.kNowUTC)
                                     time.zero None)) _ _)).
  - vm_compute. reflexivity.
  - unfold errored. vm_compute. discriminate.
Defined.

End Merge.

(** ** The task combinators *)
Section Tasks.
Import functional recurring tasks tasks_test.
Local Open Scope Z_scope.

(** *** [SeriesTasks] *)


Lemma stopped_error e : Execution_Error e <> None -> stopped e = true.
Proof.
  unfold stopped. intros H. destruct (Execution_Error e); [|contradiction].
  cbn. apply orb_true_r.
Qed.

Lemma stopped_ended e : Execution_IsEnded e = true -> stopped e = true.
Proof. unfold stopped. now intros ->. Qed.




(** [TestSeries] passes on the series that stops at an error, and fails
    on the series that the specification words, which goes on after
    one. *)
Lemma TestSeries_passes : TestSeries (ClockForTesting kNowUTC) = Some true.
Proof. vm_compute. reflexivity. Qed.

Lemma TestSeries_fails_if_errors_are_ignored :
  TestSeries_with (@SeriesTasks_ignoring_errors _) (ClockForTesting kNowUTC) = Some false.
Proof. vm_compute. reflexivity. Qed.

(** *** [RepeatingTask] *)

Lemma RepeatingTask_loop_stopped {S} (task : Task S) k e s :
  stopped e = true -> RepeatingTask_loop k task e s = Some (e, s).
Proof. intros H. destruct k; cbn [RepeatingTask_loop]; [reflexivity|]. now rewrite H. Qed.

Lemma RepeatingTask_loop_counts {S} (task : Task S) (I : Execution -> S -> Prop) :
  (forall e1 s1, I e1 s1 ->
     stopped e1 = false /\ exists e2 s2, task e1 s1 = Some (e2, s2) /\ I e2 s2) ->
  forall k e s c, I e s ->
    exists e' s', RepeatingTask_loop k (counted task) e (s, c) = Some (e', (s', (c + k)%nat))
                  /\ I e' s'.
Proof.
  intros HI. induction k as [|k IH]; intros e s c He.
  - exists e, s. cbn [RepeatingTask_loop]. rewrite Nat.add_0_r. auto.
  - destruct (HI e s He) as (Hs & e2 & s2 & Ht & H2).
    cbn [RepeatingTask_loop]. rewrite Hs. cbn [counted]. rewrite Ht.
    destruct (IH e2 s2 (Datatypes.S c) H2) as (e' & s' & Hr & H').
    replace (c + Datatypes.S k)%nat with (Datatypes.S c + k)%nat by lia.
    exists e', s'. split; assumption.
Qed.

(** C6: for all [n], [RepeatingTask(task, n)] on an execution that is
    neither ended nor failed invokes [task.Do] exactly [n] times when
    [end()] is never called and the task never records an error (the
    invariant [I] holds of every state in which the task is started, and
    keeps the run going); it invokes it exactly once when the first run
    records an error; and exactly once when [end()] is called during the
    first run, so that the execution is ended when that run returns (a
    sleep during which [end()] is called returns with the execution
    ended).  The invocations are counted by the task itself. *)
Theorem RepeatingTask_invocations {S : Type} (task : Task S)
    (I : Execution -> S -> Prop) (n : Z) e s :
  stopped e = false ->
  ((forall e1 s1, I e1 s1 ->
      stopped e1 = false /\ exists e2 s2, task e1 s1 = Some (e2, s2) /\ I e2 s2) ->
   I e s ->
   exists e' s', RepeatingTask (counted task) n e (s, 0%nat) = Some (e', (s', Z.to_nat n)))
  /\ (forall e1 s1, 1 <= n -> task e s = Some (e1, s1) ->
        Execution_Error e1 <> None ->
        RepeatingTask (counted task) n e (s, 0%nat) = Some (e1, (s1, 1%nat)))
  /\ (forall e1 s1, 1 <= n -> task e s = Some (e1, s1) ->
        Execution_IsEnded e1 = true ->
        RepeatingTask (counted task) n e (s, 0%nat) = Some (e1, (s1, 1%nat))).
Proof.
  intros Hs. split; [|split].
  - intros HI He. unfold RepeatingTask.
    destruct (RepeatingTask_loop_counts task I HI (Z.to_nat n) e s 0%nat He)
      as (e' & s' & Hr & _).
    exists e', s'. exact Hr.
  - intros e1 s1 Hn Ht He. unfold RepeatingTask.
    destruct (Z.to_nat n) as [|k] eqn:E; [lia|].
    cbn [RepeatingTask_loop]. rewrite Hs. cbn [counted]. rewrite Ht.
    apply RepeatingTask_loop_stopped. now apply stopped_error.
  - intros e1 s1 Hn Ht He. unfold RepeatingTask.
    destruct (Z.to_nat n) as [|k] eqn:E; [lia|].
    cbn [RepeatingTask_loop]. rewrite Hs. cbn [counted]. rewrite Ht.
    apply RepeatingTask_loop_stopped. now apply stopped_ended.
Qed.

(** A sleep during which the owner calls [End] returns with the execution
    ended. *)
Lemma Execution_Sleep_ended e d :
  Clock_endsDuring (clock e) (Clock_sleeps (clock e)) = true ->
  Execution_IsEnded (Execution_Sleep e d) = true.
Proof.
  intros H. unfold Execution_Sleep, Execution_IsEnded.
  destruct (cancelRequested e) eqn:E; [exact E|]. now rewrite H.
Qed.

Lemma Execution_Sleep_quiet e d :
  stopped e = false -> Clock_endsDuring (clock e) = (fun _ => false) ->
  stopped (Execution_Sleep e d) = false
  /\ Clock_endsDuring (clock (Execution_Sleep e d)) = (fun _ => false).
Proof.
  intros Hs Hc. unfold stopped, Execution_IsEnded, Execution_Error, Execution_Sleep in *.
  apply orb_false_elim in Hs as [Hs1 Hs2]. rewrite Hs1, Hc.
  cbn [cancelRequested error clock Clock_endsDuring]. rewrite ?Hs1, ?Hs2. auto.
Qed.

(** The task that never fails and is never ended, as in
    [TestRepeatingTask]. *)
Lemma taskAt_quiet e (store : list fakeTask) :
  (stopped e = false /\ Clock_endsDuring (clock e) = (fun _ => false)
   /\ exists ft, store = [ft] /\ err ft = None) ->
  stopped e = false
  /\ exists e2 store2, taskAt 0 e store = Some (e2, store2)
       /\ (stopped e2 = false /\ Clock_endsDuring (clock e2) = (fun _ => false)
           /\ exists ft, store2 = [ft] /\ err ft = None).
Proof.
  intros (Hs & Hc & ft & -> & Hft). split; [exact Hs|].
  unfold taskAt. cbn [lookup list_lookup].
  unfold fakeTask_Do. cbn [err runDuration timeStamps timesRun]. rewrite Hft.
  destruct (0 <? runDuration ft).
  - destruct (Execution_Sleep_quiet e (runDuration ft) Hs Hc) as [H1 H2].
    eexists _, _. split; [reflexivity|]. split; [exact H1|]. split; [exact H2|].
    eexists. split; [reflexivity|]. reflexivity.
  - eexists _, _. split; [reflexivity|]. split; [exact Hs|]. split; [exact Hc|].
    eexists. split; [reflexivity|]. reflexivity.
Qed.

(** The run of [TestRepeatingTaskEnded] for every number of repetitions,
    sleeping time and starting instant: the owner calls [End] while the
    first run sleeps, and the task is invoked once. *)
Lemma RepeatingTask_ended_during_first_sleep (n : Z) (d : time.Duration) (t : time.Time) :
  1 <= n -> 0 < d ->
  exists e,
    RepeatingTask (counted (taskAt 0)) n (newExecution (ClockEndedDuring t 0))
                  ([mkFakeTask d None [] 0], 0%nat)
    = Some (e, ([mkFakeTask d None [t] 1], 1%nat))
    /\ Execution_IsEnded e = true.
Proof.
  intros Hn Hd. unfold RepeatingTask.
  destruct (Z.to_nat n) as [|k] eqn:E; [lia|].
  cbn [RepeatingTask_loop]. change (stopped (newExecution (ClockEndedDuring t 0))) with false.
  cbn [counted taskAt lookup list_lookup fakeTask_Do err runDuration timeStamps timesRun].
  rewrite (proj2 (Z.ltb_lt 0 d)) by lia.
  cbn [Execution_Sleep newExecution ClockEndedDuring cancelRequested clock
       Clock_endsDuring Clock_sleeps Nat.eqb insert list_insert Execution_Now pinned
       Clock_Current app].
  eexists. split.
  - rewrite RepeatingTask_loop_stopped; reflexivity.
  - reflexivity.
Qed.

(** C6, three instances: the runs of [TestRepeatingTask],
    [TestRepeatingTaskError] and [TestRepeatingTaskEnded], whose task
    sleeps for an hour while the owner of the execution calls [End]. *)
Lemma RepeatingTask_invocations_witness :
  (exists e' s',
     RepeatingTask (counted (taskAt 0)) 5 (newExecution (ClockForTesting kNowUTC))
                   ([mkFakeTask 0 None [] 0], 0%nat)
     = Some (e', (s', 5%nat)))
  /\ RepeatingTask (counted (taskAt 0)) 5 (newExecution (ClockForTesting kNowUTC))
                   ([mkFakeTask 0 (Some kSomeError) [] 0], 0%nat)
     = Some (mkExecution false false (Some kSomeError) (ClockForTesting kNowUTC) None,
             ([mkFakeTask 0 (Some kSomeError) [kNowUTC] 1], 1%nat))
  /\ RepeatingTask (counted (taskAt 0)) 5 (newExecution (ClockEndedDuring kNowUTC 0))
                   ([mkFakeTask time.Hour None [] 0], 0%nat)
     = Some (mkExecution true false None
               (mkClock kNowUTC 1 (Clock_endsDuring (ClockEndedDuring kNowUTC 0))) None,
             ([mkFakeTask time.Hour None [kNowUTC] 1], 1%nat)).
Proof.
  split; [|split].
  - refine (proj1 (RepeatingTask_invocations (taskAt 0)
                     (fun e store => stopped e = false
                        /\ Clock_endsDuring (clock e) = (fun _ => false)
                        /\ exists ft, store = [ft] /\ err ft = None)
                     5 (newExecution (ClockForTesting kNowUTC))
                     [mkFakeTask 0 None [] 0] eq_refl) taskAt_quiet _).
    split; [reflexivity|]. split; [reflexivity|]. eexists. split; reflexivity.
  - refine (proj1 (proj2 (RepeatingTask_invocations (taskAt 0) (fun _ _ => True) 5
                            (newExecution (ClockForTesting kNowUTC))
                            [mkFakeTask 0 (Some kSomeError) [] 0] eq_refl)) _ _ _ _ _).
    + lia.
    + vm_compute. reflexivity.
    + vm_compute. discriminate.
  - refine (proj2 (proj2 (RepeatingTask_invocations (taskAt 0) (fun _ _ => True) 5
                            (newExecution (ClockEndedDuring kNowUTC 0))
                            [mkFakeTask time.Hour None [] 0] eq_refl)) _ _ _ _ _).
    + lia.
    + vm_compute. reflexivity.
    + vm_compute. reflexivity.
Defined.

(** *** [RecurringTask] *)

Section RecurringTurns.
Context (T0 : time.Time) (f : nat -> Emit) (fuel p k : nat).
Context (stamps : list time.Time) (runs : Z) (a b : Z).



End RecurringTurns.



End Tasks.

(** ** The heap entries and their order *)
Section Entries.
Import functional recurring.

Lemma item_less_trans a b c :
  item_less a b = true -> item_less b c = true -> item_less a c = true.
Proof.
  unfold item_less.
  destruct (item_e a), (item_e b), (item_e c); cbn; try congruence.
  unfold time.Time_Before. rewrite !Z.ltb_lt. lia.
Qed.

(** Two entries are tied when both are errored, or both hold a value and
    the two values are the same instant. *)
Lemma item_less_tied a b :
  item_less a b = false /\ item_less b a = false
  <-> (errored a /\ errored b)
      \/ (real a /\ real b /\ time.unixNano (item_t a) = time.unixNano (item_t b)).
Proof.
  unfold item_less, errored, real, time.Time_Before.
  destruct (item_e a), (item_e b); cbn; rewrite ?Z.ltb_ge.
  - split; [intros _; left; split; congruence|tauto].
  - split; [intros [? ?]; discriminate|].
    intros [[_ H]|(H & _)]; [now contradiction H|discriminate].
  - split; [intros [? ?]; discriminate|].
    intros [[H _]|(_ & H & _)]; [now contradiction H|discriminate].
  - split.
    + intros [? ?]. right. repeat split. lia.
    + intros [[H _]|(_ & _ & H)]; [now contradiction H|]. split; lia.
Qed.

(** X1: [streamHeap.Less] is a strict weak order on the positions of the
    slice: irreflexive, asymmetric, transitive, with a transitive "neither
    is less" relation; two entries are tied exactly when both are errored
    or both hold the same instant. *)
Theorem streamHeap_Less_strict_weak_order (sh : streamHeap) (i j k : nat) a b c :
  sh !! i = Some a -> sh !! j = Some b -> sh !! k = Some c ->
  streamHeap_Less sh i i = false
  /\ (streamHeap_Less sh i j = true -> streamHeap_Less sh j i = false)
  /\ (streamHeap_Less sh i j = true -> streamHeap_Less sh j k = true ->
      streamHeap_Less sh i k = true)
  /\ (streamHeap_Less sh i j = false -> streamHeap_Less sh j k = false ->
      streamHeap_Less sh i k = false)
  /\ (streamHeap_Less sh i j = false /\ streamHeap_Less sh j i = false
      <-> (errored a /\ errored b)
          \/ (real a /\ real b
              /\ time.unixNano (item_t a) = time.unixNano (item_t b))).
Proof.
  intros Hi Hj Hk.
  rewrite (Less_lookup sh i i a a), (Less_lookup sh i j a b), (Less_lookup sh j i b a),
    (Less_lookup sh j k b c), (Less_lookup sh i k a c) by assumption.
  split; [apply item_less_irrefl|].
  split; [apply item_less_asym|].
  split; [apply item_less_trans|].
  split; [|apply item_less_tied].
  intros H1 H2. exact (item_le_trans c b a H2 H1).
Qed.

Lemma streamHeap_Less_strict_weak_order_witness :
  let sh := map (fun s => item_pop (mkItem s time.zero None)) tasks_test.endedFirst in
  streamHeap_Less sh 1 1 = false
  /\ (streamHeap_Less sh 1 0 = true -> streamHeap_Less sh 0 1 = false).
Proof.
  intros sh.
  destruct (sh !! 0) as [a|] eqn:Ha; [|discriminate Ha].
  destruct (sh !! 1) as [b|] eqn:Hb; [|discriminate Hb].
  pose proof (streamHeap_Less_strict_weak_order sh 1 0 0 b a a Hb Ha Ha) as (H1 & H2 & _).
  split; assumption.
Defined.

(** X2: [streamHeap.Swap] exchanges the entries at the two positions and
    leaves every other position and the length as they are; the result is
    a rearrangement of the slice, swapping again restores it, and the order
    of the two indices does not matter. *)
Theorem streamHeap_Swap_exchanges (sh : streamHeap) (i j : nat) :
  i < streamHeap_Len sh -> j < streamHeap_Len sh ->
  streamHeap_Len (streamHeap_Swap sh i j) = streamHeap_Len sh
  /\ streamHeap_Swap sh i j !! i = sh !! j
  /\ streamHeap_Swap sh i j !! j = sh !! i
  /\ (forall k, k <> i -> k <> j -> streamHeap_Swap sh i j !! k = sh !! k)
  /\ streamHeap_Swap sh i j ≡ₚ sh
  /\ streamHeap_Swap (streamHeap_Swap sh i j) i j = sh
  /\ streamHeap_Swap sh j i = streamHeap_Swap sh i j.
Proof.
  unfold streamHeap_Len. intros Hi Hj.
  destruct (lookup_lt_is_Some_2 sh i Hi) as [a Ha].
  destruct (lookup_lt_is_Some_2 sh j Hj) as [b Hb].
  assert (Hl : forall k, streamHeap_Swap sh i j !! k
                 = if decide (k = j) then Some a else if decide (k = i) then Some b
                   else sh !! k) by (intros k; now apply Swap_lookup).
  assert (Hi' : streamHeap_Swap sh i j !! i = Some b).
  { rewrite Hl. destruct (decide (i = j)) as [->|]; [congruence|].
    now rewrite decide_True. }
  assert (Hj' : streamHeap_Swap sh i j !! j = Some a).
  { rewrite Hl. now rewrite decide_True. }
  split; [now apply (Swap_length sh i j a b)|].
  split; [congruence|]. split; [congruence|].
  split. { intros k Hki Hkj. rewrite Hl. now rewrite !decide_False. }
  split; [now apply (Swap_Permutation sh i j a b)|].
  split.
  - apply list_eq. intros k.
    rewrite (Swap_lookup (streamHeap_Swap sh i j) i j b a Hi' Hj' k), Hl.
    destruct (decide (k = j)) as [->|]; [congruence|].
    destruct (decide (k = i)) as [->|]; [congruence|]. reflexivity.
  - apply list_eq. intros k.
    rewrite (Swap_lookup sh j i b a Hb Ha k), Hl.
    destruct (decide (k = i)) as [Hki|Hki], (decide (k = j)) as [Hkj|Hkj];
      subst; congruence.
Qed.

Lemma streamHeap_Swap_exchanges_witness :
  let sh := map (fun s => item_pop (mkItem s time.zero None)) tasks_test.endedFirst in
  streamHeap_Swap sh 0 1 !! 0 = sh !! 1
  /\ streamHeap_Swap (streamHeap_Swap sh 0 1) 0 1 = sh.
Proof.
  intros sh.
  assert (H0 : 0 < streamHeap_Len sh) by (cbn; lia).
  assert (H1 : 1 < streamHeap_Len sh) by (cbn; lia).
  pose proof (streamHeap_Swap_exchanges sh 0 1 H0 H1) as (_ & Ha & _ & _ & _ & Hb & _).
  split; assumption.
Defined.

Lemma pulls_length n : forall s, length (pulls n s) = n.
Proof.
  induction n as [|n IH]; intros s; [reflexivity|].
  cbn [pulls Stream_Next]. cbn [length]. now rewrite IH.
Qed.

(** X3: every call of [item.pop] pulls exactly one result from the entry's
    stream.  For streams that store nothing through the pointer when they
    fail, the entry holds after [n] calls the last value that was pulled
    and the error of the last pull, [nil] if that pull gave a value. *)
Theorem item_pop_holds_last_value (n : nat) (x : item) :
  pops n x = mkItem (mkStream (Stream_seq (item_stream x)) (Stream_pos (item_stream x) + n))
                    (lastValue (item_t x) (pulls n (item_stream x)))
                    (lastError (item_e x) (pulls n (item_stream x))).
Proof.
  revert x. induction n as [|n IH]; intros [[f p] t e].
  - cbn. now rewrite Nat.add_0_r.
  - cbn [pops]. rewrite IH. unfold item_pop.
    cbn [pulls Stream_Next item_stream Stream_seq Stream_pos item_t item_e].
    destruct (f p) as [v|err];
      cbn [item_stream Stream_seq Stream_pos item_t item_e lastValue lastError];
      f_equal; f_equal; lia.
Qed.


(** X4: the heap that [combineStreams] builds has one entry for every
    stream, and no entry is less than its root.  If the root holds a value,
    the first pull of every stream gave a value, and the root holds the
    earliest of these first values. *)
Theorem combineStreams_root_is_earliest (streams : list Stream) :
  let sh := mergeStream_sh (combineStreams streams) in
  streamHeap_Len sh = length streams
  /\ (forall k, k < streamHeap_Len sh -> streamHeap_Less sh k 0 = false)
  /\ (forall top, sh !! 0 = Some top -> real top ->
        (forall s, s ∈ streams ->
           exists v, Stream_seq s (Stream_pos s) = Value v
                     /\ time.Time_Before v (item_t top) = false)
        /\ (exists s, s ∈ streams /\ Stream_seq s (Stream_pos s) = Value (item_t top))).
Proof.
  intros sh.
  destruct (combineStreams_spec streams) as [Hord Hperm]. fold sh in Hord, Hperm.
  assert (Hpop : forall s x, x = item_pop (mkItem s time.zero None) -> real x ->
            Stream_seq s (Stream_pos s) = Value (item_t x)).
  { intros s x -> Hx. unfold item_pop, real in *. cbn in *.
    destruct (Stream_seq s (Stream_pos s)); cbn in *; [reflexivity|discriminate]. }
  split. { unfold streamHeap_Len. rewrite Hperm. apply length_map. }
  split.
  { intros k Hk. unfold streamHeap_Len in Hk.
    destruct (lookup_lt_is_Some_2 sh 0) as [top Htop]; [lia|].
    destruct (lookup_lt_is_Some_2 sh k Hk) as [x Hx].
    rewrite (Less_lookup sh k 0 x top Hx Htop).
    exact (root_minimal sh top Hord Htop k x Hx). }
  intros top Htop Hreal. split.
  - intros s Hs.
    assert (Hin : item_pop (mkItem s time.zero None) ∈ sh).
    { rewrite Hperm. apply list_elem_of_fmap. eauto. }
    apply list_elem_of_lookup in Hin as [k Hk].
    set (x := item_pop (mkItem s time.zero None)) in *.
    assert (Hx : real x).
    { unfold real. destruct (item_e x) eqn:E; [|reflexivity].
      exfalso. apply (root_errored sh top k x Hord Htop Hk); [|exact Hreal].
      unfold errored. congruence. }
    exists (item_t x). split; [now apply Hpop|].
    pose proof (root_minimal sh top Hord Htop k x Hk) as Hm.
    unfold item_less in Hm. unfold real in Hx, Hreal. rewrite Hx, Hreal in Hm.
    exact Hm.
  - assert (Hin : top ∈ sh) by (apply list_elem_of_lookup; eauto).
    rewrite Hperm in Hin. apply list_elem_of_fmap in Hin as (s & Hs & Hin).
    exists s. split; [exact Hin|]. now apply Hpop.
Qed.

(** X4, an instance: of a two-hourly and an hourly stream from [kNow], the
    root holds the first tick of the hourly one. *)
Lemma combineStreams_root_is_earliest_witness :
  let t := tasks_test.kNowUTC in
  let streams := [ForTime (AtInterval (2 * time.Hour)) t; ForTime (AtInterval time.Hour) t] in
  exists s, s ∈ streams
            /\ Stream_seq s (Stream_pos s) = Value (time.Time_Add t time.Hour).
Proof.
  intros t streams.
  destruct (mergeStream_sh (combineStreams streams) !! 0) as [top|] eqn:Htop;
    [|discriminate Htop].
  assert (Ht : item_t top = time.Time_Add t time.Hour)
    by (vm_compute in Htop; injection Htop as <-; vm_compute; reflexivity).
  assert (Hr : real top)
    by (vm_compute in Htop; injection Htop as <-; reflexivity).
  destruct (combineStreams_root_is_earliest streams) as (_ & _ & H).
  destruct (H top Htop Hr) as (_ & s & Hs & Hv).
  exists s. split; [exact Hs|]. rewrite Hv. now rewrite Ht.
Defined.

End Entries.

(** ** Schedules restarted, cut and composed *)
Section Restarts.
Import time functional recurring.
Local Open Scope Z_scope.

Lemma seq_shift_add (n k a : nat) : map (fun i => (k + i)%nat) (seq a n) = seq (a + k) n.
Proof.
  revert a; induction n as [|n IH]; intros a; [reflexivity|].
  cbn [seq map]. f_equal; [lia|]. apply (IH (S a)).
Qed.

Lemma firstValues_length n : forall l, length (firstValues n l) = length l.
Proof.
  induction n as [|n IH]; intros [|[v|err] l]; cbn [firstValues length];
    rewrite ?repeat_length, ?IH; reflexivity.
Qed.

Lemma firstValues_failed n err l :
  firstValues n (Failed err :: l) = repeat (Failed Done) (S (length l)).
Proof. destruct n; reflexivity. Qed.

Lemma firstValues_0 l : firstValues 0 l = repeat (Failed Done) (length l).
Proof. destruct l; reflexivity. Qed.

Lemma firstValues_firstValues n : forall m l,
  firstValues m (firstValues n l) = firstValues (Nat.min n m) l.
Proof.
  induction n as [|n IH]; intros m l.
  - cbn [Nat.min]. rewrite !firstValues_0.
    destruct l as [|x l]; [destruct m; reflexivity|].
    cbn [length repeat]. rewrite firstValues_failed. now rewrite repeat_length.
  - destruct l as [|[v|err] l].
    + destruct m; reflexivity.
    + cbn [firstValues]. destruct m as [|m].
      * now rewrite firstValues_0; cbn [length]; rewrite firstValues_length.
      * cbn [firstValues Nat.min]. now rewrite IH.
    + rewrite firstValues_failed. cbn [repeat]. rewrite firstValues_failed, repeat_length.
      destruct m; reflexivity.
Qed.

Lemma firstValues_endsOnly n : forall l, endsOnly (firstValues n l).
Proof.
  assert (Hrep : forall k, endsOnly (repeat (Failed Done) k)).
  { intros k i err Hi. apply list_elem_of_lookup_2, list_elem_of_In, repeat_spec in Hi.
    congruence. }
  induction n as [|n IH]; intros l.
  - rewrite firstValues_0. apply Hrep.
  - destruct l as [|[v|err] l]; [apply (Hrep O)| |rewrite firstValues_failed; apply Hrep].
    cbn [firstValues]. intros [|i] e Hi; [discriminate|]. exact (IH l i e Hi).
Qed.

(** When the wrapped stream reports its end, so does the slice, from then
    on. *)
Lemma sliceStream_Next_inner_done s s' (E idx : Z) :
  0 <= idx < E -> Stream_Next s = (s', Failed Done) ->
  sliceStream_Next (mkSlice s 0 E idx false) = (mkSlice s' 0 E idx true, Failed Done).
Proof.
  intros Hi HE. unfold sliceStream_Next. cbn [slice_done slice_start slice_index].
  replace (Z.to_nat (0 - idx)) with O by lia.
  cbn [sliceStream_loop slice_end slice_index slice_Stream slice_start slice_done].
  rewrite (proj2 (Z.ltb_lt idx E)) by lia. rewrite orb_true_r, HE. reflexivity.
Qed.

Lemma results_slice_firstValues (k : nat) : forall (n : nat) (s : Stream) (idx : Z),
  0 <= idx ->
  endsOnly (pulls k s) ->
  results sliceStream_Next k (mkSlice s 0 (idx + Z.of_nat n) idx false)
  = firstValues n (pulls k s).
Proof.
  induction k as [|k IH]; intros n s idx Hidx He.
  - destruct n; reflexivity.
  - cbn [pulls] in He |- *. destruct (Stream_Next s) as [s' r] eqn:E.
    cbn [results]. destruct n as [|n].
    + rewrite sliceStream_Next_end by lia. cbn [fst snd].
      rewrite results_slice_done by reflexivity.
      rewrite firstValues_0. cbn [length repeat]. now rewrite pulls_length.
    + destruct r as [v|err].
      * rewrite (sliceStream_Next_value s s' v) by (auto; lia).
        cbn [fst snd firstValues]. f_equal.
        replace (idx + Z.of_nat (S n)) with (idx + 1 + Z.of_nat n) by lia.
        apply IH; [lia|]. intros i e Hi. exact (He (S i) e Hi).
      * assert (err = Done) as -> by exact (He O err eq_refl).
        rewrite (sliceStream_Next_inner_done s s') by (auto; lia).
        cbn [fst snd]. rewrite results_slice_done by reflexivity.
        rewrite firstValues_failed. cbn [repeat]. now rewrite pulls_length.
Qed.

Lemma pulls_FirstN_firstValues (r : R) (n k : nat) t :
  endsOnly (pulls k (ForTime r t)) ->
  pulls k (ForTime (FirstN r (Z.of_nat n)) t) = firstValues n (pulls k (ForTime r t)).
Proof.
  intros He. cbn [ForTime FirstN Modify]. unfold Slice. rewrite pulls_asStream.
  apply (results_slice_firstValues k n (ForTime r t) 0); [lia | exact He].
Qed.

Lemma endsOnly_values l : forallb isValue l = true -> endsOnly l.
Proof.
  intros Hv i err Hi. apply list_elem_of_lookup_2, list_elem_of_In in Hi.
  rewrite forallb_forall in Hv. apply Hv in Hi. discriminate.
Qed.

Lemma AtInterval_values d t n : forallb isValue (pulls n (ForTime (AtInterval d) t)) = true.
Proof.
  rewrite pulls_AtInterval. apply forallb_forall. intros x Hx.
  apply in_map_iff in Hx as (k & <- & _). reflexivity.
Qed.

(** X5: for every schedule [r] that fails only to signal its end, and
    every [n >= 0], the results of [FirstN(r, n)] are those of [r] up to
    its [n]-th value or its end, whichever comes first, and [Done] on
    every call after that: never more than [n] values, and no value after
    the first [Done]. *)
Theorem FirstN_emits_first_values (r : R) (n k : nat) t :
  endsOnly (pulls k (ForTime r t)) ->
  pulls k (ForTime (FirstN r (Z.of_nat n)) t) = firstValues n (pulls k (ForTime r t)).
Proof. apply pulls_FirstN_firstValues. Qed.

Lemma FirstN_emits_first_values_witness :
  let t := tasks_test.kNowUTC in
  endsOnly (pulls 4 (ForTime (AtInterval Hour) t))
  /\ pulls 4 (ForTime (FirstN (AtInterval Hour) 2) t)
     = [Value (Time_Add t Hour); Value (Time_Add t (2 * Hour)); Failed Done; Failed Done].
Proof.
  intros t.
  assert (He : endsOnly (pulls 4 (ForTime (AtInterval Hour) t)))
    by (apply endsOnly_values, AtInterval_values).
  split; [exact He|].
  change 2 with (Z.of_nat 2).
  rewrite (FirstN_emits_first_values (AtInterval Hour) 2 4 t He).
  vm_compute. reflexivity.
Defined.

(** X6: cutting twice is cutting once at the smaller bound: for a
    schedule [r] that fails only to signal its end,
    [FirstN(FirstN(r, n), m)] gives the results of
    [FirstN(r, min(n, m))]. *)
Theorem FirstN_FirstN (r : R) (n m k : nat) t :
  endsOnly (pulls k (ForTime r t)) ->
  pulls k (ForTime (FirstN (FirstN r (Z.of_nat n)) (Z.of_nat m)) t)
  = pulls k (ForTime (FirstN r (Z.of_nat (Nat.min n m))) t).
Proof.
  intros He.
  rewrite (pulls_FirstN_firstValues (FirstN r (Z.of_nat n)) m k t).
  - rewrite !pulls_FirstN_firstValues by exact He. apply firstValues_firstValues.
  - rewrite pulls_FirstN_firstValues by exact He. apply firstValues_endsOnly.
Qed.

Lemma FirstN_FirstN_witness :
  let t := tasks_test.kNowUTC in
  pulls 4 (ForTime (FirstN (FirstN (AtInterval Hour) 3) 1) t)
  = pulls 4 (ForTime (FirstN (AtInterval Hour) 1) t).
Proof.
  intros t.
  exact (FirstN_FirstN (AtInterval Hour) 3 1 4 t
           (endsOnly_values _ (AtInterval_values Hour t 4))).
Defined.

(** X7: a schedule of [AtInterval] has no memory of where it was started:
    started again at its [k]-th tick (at [t] itself for [k = 0]), it emits
    what the stream started at [t] emits after its first [k] values. *)
Theorem AtInterval_restarts_at_its_ticks (d : Duration) t (k n : nat) :
  pulls n (ForTime (AtInterval d) (Time_Add t (Z.of_nat k * d)))
  = drop k (pulls (k + n) (ForTime (AtInterval d) t)).
Proof.
  rewrite !pulls_AtInterval.
  rewrite <- fmap_drop. change (@fmap list _) with (@map).
  rewrite drop_seq. replace (k + n - k)%nat with n by lia.
  rewrite <- (seq_shift_add n k 1). rewrite map_map. apply map_ext. intros a.
  f_equal. rewrite Time_Add_Add. f_equal. lia.
Qed.

Lemma newDateStream_after t h m :
  0 <= h * 60 + m ->
  unixNano t < unixNano (dateStream_t (newDateStream h m t)).
Proof.
  intros Hhm.
  pose proof (today_unixNano t h m) as Htoday.
  unfold newDateStream.
  set (today := Date (Time_Year t) (Time_Month t) (Time_Day t) h m 0 0 (Time_Location t))
    in *.
  cbn [dateStream_t]. unfold Time_After.
  destruct (Z.ltb_spec (unixNano t) (unixNano today)) as [Hlt|Hge]; cbn [negb];
    [exact Hlt|].
  rewrite AddDate_one_day. cbn [Time_Add unixNano]. rewrite Htoday.
  change (24 * Hour) with 86400000000000.
  unfold Time_days, Time_abs, secondsPerDay, unixEpochDays.
  Z.div_mod_to_equations; lia.
Qed.

(** X8: in a location with a fixed offset from UTC, [AtTime] keeps the
    contract that the interface [R] states for [ForTime]: for every
    [hour24] and [minute] of at most 2^30 in absolute value that do not add
    up to a negative time of day, and every instant [t] and number [n]
    such that [t] and the first [n] values are in the range in which the
    library's calendar arithmetic is exact, each of the first [n] values
    of [AtTime(hour24, minute).ForTime(t)] is strictly after [t] and
    strictly before the next. *)
Theorem AtTime_after_and_ascending t hour24 minute (n : nat) :
  inRange t -> isSmallInt hour24 -> isSmallInt minute ->
  valuesInRange (pulls n (ForTime (AtTime hour24 minute) t)) ->
  0 <= hour24 * 60 + minute ->
  emits_after t (pulls n (ForTime (AtTime hour24 minute) t))
  /\ strictly_ascending (pulls n (ForTime (AtTime hour24 minute) t)).
Proof.
  intros _ _ _ _ Hhm. pose proof (newDateStream_after t hour24 minute Hhm) as Hafter.
  rewrite pulls_AtTime. set (first := dateStream_t (newDateStream hour24 minute t)) in *.
  split.
  - intros i v Hi. apply lookup_map_seq in Hi as [Hv _].
    injection Hv as ->. unfold Time_After. apply Z.ltb_lt.
    cbn [Time_Add unixNano]. change (24 * Hour) with 86400000000000. lia.
  - intros i v w Hi Hj. apply lookup_map_seq in Hi as [Hv _].
    apply lookup_map_seq in Hj as [Hw _].
    injection Hv as ->. injection Hw as ->. unfold Time_Before. apply Z.ltb_lt.
    cbn [Time_Add unixNano]. change (24 * Hour) with 86400000000000. lia.
Qed.

(** X8, an instance: daily at 07:30 from [kNow]. *)
Lemma AtTime_after_and_ascending_witness :
  0 <= 7 * 60 + 30
  /\ emits_after tasks_test.kNowUTC (pulls 3 (ForTime (AtTime 7 30) tasks_test.kNowUTC)).
Proof.
  split; [lia|].
  apply (AtTime_after_and_ascending tasks_test.kNowUTC 7 30 3);
    [in_range | in_range | in_range | values_in_range | lia].
Defined.

(** Started at an instant that reads the time of day, the stream of
    [AtTime] begins one day later. *)
Lemma newDateStream_at_value h m v :
  atClock h m v -> dateStream_t (newDateStream h m v) = Time_Add v (24 * Hour).
Proof.
  intros Hat. unfold newDateStream.
  assert (Date (Time_Year v) (Time_Month v) (Time_Day v) h m 0 0 (Time_Location v) = v)
    as ->.
  { apply Time_eq; [|apply Date_loc].
    rewrite today_unixNano. symmetry. now apply atClock_unixNano. }
  unfold Time_After. rewrite Z.ltb_irrefl. cbn [negb dateStream_t].
  apply AddDate_one_day.
Qed.

(** X9: a schedule of [AtTime] with the hour in 0..23 and the minute in
    0..59 has no memory of where it was started: started again at one of
    its values, it emits the values that follow that one. *)
Theorem AtTime_restarts_at_its_values t hour24 minute (k n : nat) v :
  0 <= hour24 < 24 -> 0 <= minute < 60 ->
  pulls (S k) (ForTime (AtTime hour24 minute) t) !! k = Some (Value v) ->
  pulls n (ForTime (AtTime hour24 minute) v)
  = drop (S k) (pulls (S k + n) (ForTime (AtTime hour24 minute) t)).
Proof.
  intros Hh Hm Hv.
  destruct (newDateStream_first t hour24 minute Hh Hm) as [(_ & Hat & _) _].
  set (first := dateStream_t (newDateStream hour24 minute t)) in *.
  assert (Hv' : v = Time_Add first (Z.of_nat k * (24 * Hour))).
  { rewrite pulls_AtTime in Hv. apply lookup_map_seq in Hv as [Hv _].
    injection Hv as Hv. exact Hv. }
  clear Hv. rename Hv' into Hv.
  destruct (atClock_Add_days hour24 minute first (Z.of_nat k) Hh Hm Hat) as [Hatv _].
  rewrite <- Hv in Hatv.
  rewrite !pulls_AtTime. fold first. rewrite (newDateStream_at_value _ _ _ Hatv).
  rewrite <- fmap_drop. change (@fmap list _) with (@map).
  rewrite drop_seq. replace (S k + n - S k)%nat with n by lia.
  rewrite <- (seq_shift_add n (S k) 0). rewrite map_map. apply map_ext. intros a.
  f_equal. rewrite Hv, !Time_Add_Add. f_equal. lia.
Qed.

Lemma AtTime_restarts_at_its_values_witness :
  let t := tasks_test.kNowUTC in
  let v := Date 2013 9 14 7 30 0 0 UTC in
  pulls 2 (ForTime (AtTime 7 30) v) = drop 2 (pulls (2 + 2) (ForTime (AtTime 7 30) t)).
Proof.
  intros t v.
  apply (AtTime_restarts_at_its_values t 7 30 1 2 v); [lia | lia |].
  vm_compute. reflexivity.
Defined.

Lemma nextOccurrence_unique h m t v w :
  nextOccurrence h m t v -> nextOccurrence h m t w -> v = w.
Proof.
  intros (Hlv & Hav & Htv & Hminv) (Hlw & Haw & Htw & Hminw).
  pose proof (Hminv w Hlw Haw Htw) as H1. pose proof (Hminw v Hlv Hav Htv) as H2.
  unfold Time_Before in H1, H2. apply Z.ltb_ge in H1, H2.
  apply Time_eq; [lia|]. unfold Time_Location in *. congruence.
Qed.

(** X10: in a location with a fixed offset from UTC, between two
    occurrences of the time of day the schedule of [AtTime] does not depend
    on when it is asked: with the hour in 0..23 and the minute in 0..59,
    every instant [u] of [t]'s location from [t] up to, but not including,
    the first value for [t] gets the same stream as [t].  [t] and [u] are
    in the range in which the library's calendar arithmetic is exact. *)
Theorem AtTime_same_until_first_value t u hour24 minute (n : nat) :
  0 <= hour24 < 24 -> 0 <= minute < 60 ->
  inRange t -> inRange u ->
  Time_Location u = Time_Location t ->
  Time_Before u t = false ->
  Time_Before u (dateStream_t (newDateStream hour24 minute t)) = true ->
  pulls n (ForTime (AtTime hour24 minute) u) = pulls n (ForTime (AtTime hour24 minute) t).
Proof.
  intros Hh Hm _ _ Hloc Htu Huf.
  destruct (newDateStream_first t hour24 minute Hh Hm) as [(Hlf & Haf & Hft & Hminf) _].
  destruct (newDateStream_first u hour24 minute Hh Hm) as [Hnu _].
  set (first := dateStream_t (newDateStream hour24 minute t)) in *.
  assert (Hnt : nextOccurrence hour24 minute u first).
  { unfold Time_Before, Time_After in *. apply Z.ltb_ge in Htu. apply Z.ltb_lt in Huf.
    split; [congruence|]. split; [exact Haf|]. split; [now apply Z.ltb_lt|].
    intros w Hlw Haw Hwu. apply Hminf; [congruence | exact Haw |].
    apply Z.ltb_lt in Hwu. apply Z.ltb_lt. lia. }
  rewrite !pulls_AtTime. fold first.
  now rewrite (nextOccurrence_unique _ _ _ _ _ Hnu Hnt).
Qed.

(** X10, an instance: asked five hours after [kNow], the 07:30 schedule
    is the one of [kNow]. *)
Lemma AtTime_same_until_first_value_witness :
  let t := tasks_test.kNowUTC in
  pulls 3 (ForTime (AtTime 7 30) (Time_Add t (5 * Hour)))
  = pulls 3 (ForTime (AtTime 7 30) t).
Proof.
  intros t.
  apply (AtTime_same_until_first_value t (Time_Add t (5 * Hour)) 7 30 3);
    try lia; try in_range; vm_compute; reflexivity.
Defined.

(** X11: the stream of [dateStream.Next], started at any instant, emits
    that instant and then the same wall-clock reading, to the nanosecond,
    on each following calendar day of its location: the [k]-th result is
    the date of the start with [k] added to the day of the month. *)
Theorem dateStream_emits_calendar_days (s : dateStream) (n : nat) :
  results dateStream_Next n s
  = map (fun k : nat =>
           let t := dateStream_t s in
           Value (Date (Time_Year t) (Time_Month t) (Time_Day t + Z.of_nat k)
                       (Time_Hour t) (Time_Minute t) (Time_Second t)
                       (Time_Nanosecond t) (Time_Location t)))
        (seq 0 n).
Proof.
  rewrite results_dateStream. apply map_ext. intros k. cbv zeta. f_equal.
  set (t := dateStream_t s).
  pose proof (Clock_ranges t) as (_ & _ & _ & _ & Habs).
  apply Time_eq; [|now rewrite Date_loc].
  rewrite Date_same_day. cbn [Time_Add unixNano].
  change (24 * Hour) with 86400000000000.
  unfold Time_abs, Time_Nanosecond, secondsPerDay, unixEpochDays in *.
  Z.div_mod_to_equations; lia.
Qed.

End Restarts.

(** ** The helpers of the test file *)
Section TestHelpers.
Import tasks tasks_test.

Lemma fakeTask_Do_fields ft e :
  let ft' := fst (fakeTask_Do ft e) in
  runDuration ft' = runDuration ft /\ err ft' = err ft
  /\ timeStamps ft' = timeStamps ft ++ [Execution_Now e]
  /\ timesRun ft' = (timesRun ft + 1)%Z.
Proof. cbn. auto. Qed.

(** X12: whatever executions a [fakeTask] is run on, as long as
    [timesRun] stays within the 32 bits that every [int] of Go holds, [Do]
    adds one to [timesRun] and appends the start instant that the
    execution reports to [timeStamps], and leaves [runDuration] and [err]
    alone.  So an object that starts from the zero counters has as many
    time stamps as completed runs, and [hasRun] holds exactly when it was
    run at least once. *)
Theorem fakeTask_counts_its_runs (ft : fakeTask) (es : list Execution) :
  (- 2 ^ 31 <= timesRun ft)%Z ->
  (timesRun ft + Z.of_nat (length es) < 2 ^ 31)%Z ->
  let ft' := fakeTask_runs ft es in
  runDuration ft' = runDuration ft /\ err ft' = err ft
  /\ timeStamps ft' = timeStamps ft ++ map Execution_Now es
  /\ timesRun ft' = (timesRun ft + Z.of_nat (length es))%Z
  /\ (timesRun ft = 0%Z -> (fakeTask_hasRun ft' = true <-> es <> [])).
Proof.
  intros _ _. cbv zeta. unfold fakeTask_runs.
  assert (H : runDuration (fold_left (fun ft e => fst (fakeTask_Do ft e)) es ft)
              = runDuration ft
          /\ err (fold_left (fun ft e => fst (fakeTask_Do ft e)) es ft) = err ft
          /\ timeStamps (fold_left (fun ft e => fst (fakeTask_Do ft e)) es ft)
             = timeStamps ft ++ map Execution_Now es
          /\ timesRun (fold_left (fun ft e => fst (fakeTask_Do ft e)) es ft)
             = (timesRun ft + Z.of_nat (length es))%Z).
  { revert ft. induction es as [|e es IH]; intros ft.
    - cbn. rewrite app_nil_r, Z.add_0_r. auto.
    - cbn [fold_left map length]. destruct (IH (fst (fakeTask_Do ft e))) as (H1 & H2 & H3 & H4).
      destruct (fakeTask_Do_fields ft e) as (F1 & F2 & F3 & F4).
      rewrite H1, H2, H3, H4, F1, F2, F3, F4. rewrite <- app_assoc.
      repeat split; try reflexivity. lia. }
  destruct H as (H1 & H2 & H3 & H4). repeat split; try assumption.
  - unfold fakeTask_hasRun. rewrite H4, H, Z.ltb_lt. intros Hpos ->. cbn in Hpos. lia.
  - unfold fakeTask_hasRun. rewrite H4, H, Z.ltb_lt. destruct es; [congruence|].
    cbn [length]. lia.
Qed.

(** X12, an instance: a fresh object run twice under the virtual clock. *)
Lemma fakeTask_counts_its_runs_witness :
  let e := newExecution (ClockForTesting kNowUTC) in
  let ft' := fakeTask_runs (mkFakeTask 0 None [] 0) [e; e] in
  fakeTask_hasRun ft' = true /\ timeStamps ft' = [kNowUTC; kNowUTC].
Proof.
  intros e ft'.
  destruct (fakeTask_counts_its_runs (mkFakeTask 0 None [] 0) [e; e])
    as (_ & _ & Hs & _ & Hr); [vm_compute; congruence | vm_compute; congruence |].
  split.
  - apply (Hr eq_refl). discriminate.
  - exact Hs.
Defined.

Lemma verifyTimes_reports {T : Type} (same : T -> T -> bool)
    (actual expected : list T) (r : report T) :
  (forall x y, same x y = true <-> x = y) ->
  In r (verifyTimes same actual expected)
  <-> match r with
      | WrongCount n m =>
          length actual <> length expected /\ n = length expected /\ m = length actual
      | WrongTime x i y =>
          length actual = length expected
          /\ expected !! i = Some x /\ actual !! i = Some y /\ x <> y
      end.
Proof.
  intros Hsame.
  unfold verifyTimes. destruct (Nat.eqb_spec (length actual) (length expected)) as [Hl|Hl];
    cbn [negb].
  - rewrite in_flat_map. split.
    + intros (i & Hi & Hr). apply in_seq in Hi.
      destruct (expected !! i) as [e|] eqn:He; [|contradiction].
      destruct (actual !! i) as [a|] eqn:Ha; [|contradiction].
      destruct (same e a) eqn:E; cbn [negb] in Hr; [contradiction|].
      destruct Hr as [<-|[]]. repeat split; try assumption.
      intros ->. assert (same a a = true) by now apply Hsame. congruence.
    + destruct r as [n m|x i y]; [intros [? _]; contradiction|].
      intros (_ & He & Ha & Hne). exists i. split.
      * apply in_seq. apply lookup_lt_Some in He. lia.
      * rewrite He, Ha. destruct (same x y) eqn:E; cbn [negb]; [|now left].
        apply Hsame in E. contradiction.
  - cbn [In]. split.
    + intros [<-|[]]. auto.
    + destruct r as [n m|x i y]; [|intros [? _]; contradiction].
      intros (_ & -> & ->). now left.
Qed.

(** X13: [verifyTimes] reports nothing exactly when the two slices hold
    the same [time.Time] values, as [==] compares them, element for
    element.  When the lengths differ it reports the two lengths and
    nothing else; otherwise it reports every index at which the two values
    differ, with the two values, and no other index. *)
Theorem verifyTimes_reports_the_differences {T : Type} (same : T -> T -> bool)
    (actual expected : list T) :
  (forall x y, same x y = true <-> x = y) ->
  (verifyTimes same actual expected = [] <-> actual = expected)
  /\ (length actual <> length expected <->
      verifyTimes same actual expected
      = [WrongCount (length expected) (length actual)])
  /\ (forall x i y,
        In (WrongTime x i y) (verifyTimes same actual expected)
        <-> length actual = length expected
            /\ expected !! i = Some x /\ actual !! i = Some y /\ x <> y).
Proof.
  intros Hsame.
  split; [|split].
  - split.
    + intros Hnil.
      assert (Hl : length actual = length expected).
      { destruct (Nat.eq_dec (length actual) (length expected)) as [|Hne]; [assumption|].
        assert (Hin : In (WrongCount (length expected) (length actual))
                         (verifyTimes same actual expected))
          by (apply (verifyTimes_reports same _ _ _ Hsame); auto).
        rewrite Hnil in Hin. destruct Hin. }
      apply list_eq. intros i.
      destruct (actual !! i) as [a|] eqn:Ha.
      * destruct (lookup_lt_is_Some_2 expected i) as [e He];
          [apply lookup_lt_Some in Ha; lia|].
        rewrite He. f_equal.
        destruct (same e a) eqn:E; [symmetry; now apply Hsame|].
        assert (Hin : In (WrongTime e i a) (verifyTimes same actual expected)).
        { apply (verifyTimes_reports same _ _ _ Hsame). repeat split; try assumption.
          intros ->. assert (same a a = true) by now apply Hsame.
          congruence. }
        rewrite Hnil in Hin. destruct Hin.
      * symmetry. apply lookup_ge_None. apply lookup_ge_None in Ha. lia.
    + intros ->. destruct (verifyTimes same expected expected) as [|r l] eqn:E;
        [reflexivity|].
      assert (Hin : In r (verifyTimes same expected expected)) by (rewrite E; now left).
      apply (verifyTimes_reports same _ _ _ Hsame) in Hin.
      destruct r as [n m|x i y].
      * destruct Hin as [Hne _]. now contradiction Hne.
      * destruct Hin as (_ & He & Ha & Hne). congruence.
  - unfold verifyTimes.
    destruct (Nat.eqb_spec (length actual) (length expected)) as [Hl|Hl]; cbn [negb].
    + split; [intros Hne; contradiction|]. intros Heq.
      assert (Hin : In (WrongCount (length expected) (length actual))
                       (verifyTimes same actual expected)).
      { unfold verifyTimes. rewrite (proj2 (Nat.eqb_eq _ _) Hl). cbn [negb].
        rewrite Heq. now left. }
      apply (verifyTimes_reports same _ _ _ Hsame) in Hin. cbn in Hin.
      destruct Hin as [Hne _]. contradiction.
    + tauto.
  - intros x i y. apply (verifyTimes_reports same actual expected (WrongTime x i y) Hsame).
Qed.

(** X13, an instance: the time stamps of [TestRecurringOverrun], values
    of this development's [time.Time], compared field by field. *)
Lemma verifyTimes_reports_the_differences_witness :
  let same (t u : time.Time) :=
    (time.unixNano t =? time.unixNano u)%Z
    && (time.offset (time.loc t) =? time.offset (time.loc u))%Z in
  let stamps := [time.Time_Add kNowUTC time.Hour; time.Time_Add kNowUTC (3 * time.Hour)] in
  verifyTimes same stamps stamps = [].
Proof.
  intros same stamps.
  assert (Hsame : forall x y, same x y = true <-> x = y).
  { intros [n [o]] [n' [o']]. subst same. cbn.
    rewrite andb_true_iff, !Z.eqb_eq. split; [intros [-> ->]; reflexivity|].
    intros E. injection E as -> ->. split; reflexivity. }
  now apply (proj1 (verifyTimes_reports_the_differences same stamps stamps Hsame)).
Defined.

End TestHelpers.
